(** * p-monitoring: probing, classification, status store and aggregation

    A shallow embedding of [main.go] (package [main] of SPS-SIPS/p-monitoring)
    and the properties of its health pipeline:

    - [strconv], [json], [strings], [url]: models of what the prober uses
      of Go's library ([json.Unmarshal] into
      [struct { Status string `json:"status"` }],
      [strings.TrimSpace (strings.ToLower s)], the text of the errors of
      [client.Get]);
    - the data model ([ComponentConfig], [AppConfig], [HealthComponent],
      [HealthResponse], [StatusMap]);
    - [Update], [GetAll], [checkComponents], [trimToOk] and the [/health]
      handler of [startHTTPServer];
    - the theorems about them.

    Go strings are byte sequences: they are modelled by [string], one [ascii]
    per byte.  The map of the status store is a [gmap string _]. *)

From Stdlib Require Import ZArith NArith Ascii String List Lia.
From stdpp Require Import base option list gmap strings fin_maps.

Set Warnings "-register-all".

Local Open Scope string_scope.
Local Open Scope N_scope.

(** ** Bytes *)

Definition byte_code (c : ascii) : N := N_of_ascii c.
Definition byte_of (n : N) : ascii := ascii_of_N (n mod 256).

Definition in_range (lo hi : N) (c : ascii) : bool :=
  (lo <=? byte_code c) && (byte_code c <=? hi).

Definition dquote : ascii := "034"%char.
Definition squote : ascii := "039"%char.
Definition backslash : ascii := "092"%char.

Definition str1 (c : ascii) : string := String c EmptyString.

(** A Go string literal [`"s"`]: [s] between two double quotes. *)
Definition quoted (s : string) : string :=
  String dquote (s ++ str1 dquote).

Definition hex_digit (n : N) : ascii :=
  if n <? 10 then byte_of (48 + n) else byte_of (87 + n).

Definition hex_value (c : ascii) : option N :=
  if in_range 48 57 c then Some (byte_code c - 48)
  else if in_range 97 102 c then Some (byte_code c - 87)
  else if in_range 65 70 c then Some (byte_code c - 55)
  else None.

(** [utf8.EncodeRune]: surrogates and runes above U+10FFFF are written as
    U+FFFD. *)
Definition replacement_char : string :=
  String (byte_of 239) (String (byte_of 191) (str1 (byte_of 189))).

Definition utf8_EncodeRune (r : N) : string :=
  if r <=? 127 then str1 (byte_of r)
  else if r <=? 2047 then
    String (byte_of (192 + r / 64)) (str1 (byte_of (128 + r mod 64)))
  else if (1114111 <? r) || ((55296 <=? r) && (r <=? 57343)) then
    replacement_char
  else if r <=? 65535 then
    String (byte_of (224 + r / 4096))
      (String (byte_of (128 + (r / 64) mod 64))
         (str1 (byte_of (128 + r mod 64))))
  else
    String (byte_of (240 + r / 262144))
      (String (byte_of (128 + (r / 4096) mod 64))
         (String (byte_of (128 + (r / 64) mod 64))
            (str1 (byte_of (128 + r mod 64))))).

Definition is_cont (c : ascii) : bool := in_range 128 191 c.

(** [utf8.DecodeRune] as far as its callers here need it: the number of
    bytes (2, 3 or 4) of the well-formed multi-byte encoding that starts
    the string, [None] when its first byte does not start one (Go then
    yields [RuneError] of width 1). *)
Definition utf8_width (s : string) : option nat :=
  match s with
  | String c0 (String c1 rest) =>
      if in_range 194 223 c0 then
        if is_cont c1 then Some 2%nat else None
      else
        match rest with
        | String c2 rest' =>
            let second_ok3 :=
              if byte_code c0 =? 224 then in_range 160 191 c1
              else if byte_code c0 =? 237 then in_range 128 159 c1
              else is_cont c1 in
            if in_range 224 239 c0 then
              if second_ok3 && is_cont c2 then Some 3%nat else None
            else
              match rest' with
              | String c3 _ =>
                  let second_ok4 :=
                    if byte_code c0 =? 240 then in_range 144 191 c1
                    else if byte_code c0 =? 244 then in_range 128 143 c1
                    else is_cont c1 in
                  if in_range 240 244 c0 then
                    if second_ok4 && is_cont c2 && is_cont c3
                    then Some 4%nat else None
                  else None
              | _ => None
              end
        | _ => None
        end
  | _ => None
  end.

(** The rune of the well-formed multi-byte encoding that starts the string
    (U+FFFD when there is none). *)
Definition utf8_rune (s : string) : N :=
  match utf8_width s, s with
  | Some 2%nat, String c0 (String c1 _) =>
      (byte_code c0 - 192) * 64 + (byte_code c1 - 128)
  | Some 3%nat, String c0 (String c1 (String c2 _)) =>
      (byte_code c0 - 224) * 4096 + (byte_code c1 - 128) * 64
      + (byte_code c2 - 128)
  | Some 4%nat, String c0 (String c1 (String c2 (String c3 _))) =>
      (byte_code c0 - 240) * 262144 + (byte_code c1 - 128) * 4096
      + (byte_code c2 - 128) * 64 + (byte_code c3 - 128)
  | _, _ => 65533
  end.

(** [n] in lower-case hexadecimal, on [digits] digits. *)
Fixpoint hex_of (digits : nat) (n : N) : string :=
  match digits with
  | O => EmptyString
  | S d => hex_of d (n / 16) ++ str1 (hex_digit (n mod 16))
  end.

(** ** [strconv]: quoting, as error texts use it *)
Module strconv.

(** [strconv.IsPrint].  It is Go's table up to U+00FF; runes above U+00FF
    are all taken to be printable. *)
Definition IsPrint (r : N) : bool :=
  if r <=? 255 then
    ((32 <=? r) && (r <=? 126))
    || ((161 <=? r) && (r <=? 255) && negb (r =? 173))
  else true.

(** [appendEscapedRune], the quote character being the double quote. *)
Definition appendEscapedRune (r : N) : string :=
  if (r =? 34) || (r =? 92) then String backslash (str1 (byte_of r))
  else if IsPrint r then utf8_EncodeRune r
  else if r =? 7 then "\a"
  else if r =? 8 then "\b"
  else if r =? 12 then "\f"
  else if r =? 10 then "\n"
  else if r =? 13 then "\r"
  else if r =? 9 then "\t"
  else if r =? 11 then "\v"
  else if (r <? 32) || (r =? 127) then "\x" ++ hex_of 2 r
  else if r <? 65536 then "\u" ++ hex_of 4 r
  else "\U" ++ hex_of 8 r.

(** The text between the quotes of [strconv.Quote(s)]: rune by rune, a
    byte that starts no well-formed encoding being written [\xNN]. *)
Fixpoint quote_body (s : string) : string :=
  match s with
  | EmptyString => EmptyString
  | String c rest =>
      if byte_code c <? 128 then appendEscapedRune (byte_code c) ++ quote_body rest
      else
        match utf8_width s, rest with
        | Some 2%nat, String _ r2 => appendEscapedRune (utf8_rune s) ++ quote_body r2
        | Some 3%nat, String _ (String _ r3) =>
            appendEscapedRune (utf8_rune s) ++ quote_body r3
        | Some 4%nat, String _ (String _ (String _ r4)) =>
            appendEscapedRune (utf8_rune s) ++ quote_body r4
        | _, _ => "\x" ++ hex_of 2 (byte_code c) ++ quote_body rest
        end
  end.

Definition Quote (s : string) : string := quoted (quote_body s).

End strconv.

(** ** [encoding/json]: decoding a body into the classifier's struct

    [checkComponents] decodes every response body with
    [json.Unmarshal(bodyBytes, &health)] where
    [health] is a [struct { Status string `json:"status"` }].  The library is
    not part of the repository; this module models it: the scanner is the
    byte-at-a-time state machine of [encoding/json] (same states, same error
    texts), extended so that it also builds the value it recognises, and
    [Unmarshal] stores that value into the struct as the decoder does.
    [Unmarshal] is a total function: on every input the library returns,
    with an error or with nil. *)
Module json.

Inductive value : Type :=
| Null
| Bool (b : bool)
| Number (lit : string)
| Str (s : string)
| Array (elems : list value)
| Object (members : list (string * value)).

(** The errors [Unmarshal] can return for this target type. *)
Inductive error : Type :=
| SyntaxError (msg : string)
| UnmarshalTypeError (Value : string) (Field : string).

(** [reflect.Type.String()] of the target struct and of its field. *)
Definition health_type : string :=
  "struct { Status string " ++
    quoted ("json:" ++ str1 backslash ++ quoted ("status" ++ str1 backslash)) ++ " }".

Definition Error (e : error) : string :=
  match e with
  | SyntaxError msg => msg
  | UnmarshalTypeError v "" =>
      "json: cannot unmarshal " ++ v ++ " into Go value of type " ++ health_type
  | UnmarshalTypeError v f =>
      "json: cannot unmarshal " ++ v ++ " into Go struct field ." ++ f ++
      " of type string"
  end.

(** [quoteChar]: the offending byte as it appears in a syntax error,
    [strconv.Quote(string(c))] between single quotes. *)
Definition quoteChar (c : ascii) : string :=
  if byte_code c =? 39 then "'\''"
  else if byte_code c =? 34 then String squote (String dquote (str1 squote))
  else "'" ++ strconv.quote_body (utf8_EncodeRune (byte_code c)) ++ "'".

(** *** Unquoting a string literal ([unquoteBytes]) *)

Definition getu4 (a b c d : ascii) : option N :=
  match hex_value a, hex_value b, hex_value c, hex_value d with
  | Some x, Some y, Some z, Some w => Some (((x * 16 + y) * 16 + z) * 16 + w)
  | _, _, _, _ => None
  end.

Definition is_surrogate (r : N) : bool := (55296 <=? r) && (r <? 57344).

(** The low half that completes the surrogate [r1], when the literal goes
    on with one: the combined rune. *)
Definition surrogate_pair (r1 : N) (s : string) : option N :=
  match s with
  | String e (String u (String a (String b (String c (String d _))))) =>
      if (byte_code e =? 92) && (byte_code u =? 117) then
        match getu4 a b c d with
        | Some r2 =>
            if (r1 <? 56320) && (56320 <=? r2) && (r2 <? 57344)
            then Some ((r1 - 55296) * 1024 + (r2 - 56320) + 65536)
            else None
        | None => None
        end
      else None
  | _ => None
  end.

Definition simple_escape (c : ascii) : option ascii :=
  if byte_code c =? 98 then Some (byte_of 8)
  else if byte_code c =? 102 then Some (byte_of 12)
  else if byte_code c =? 110 then Some (byte_of 10)
  else if byte_code c =? 114 then Some (byte_of 13)
  else if byte_code c =? 116 then Some (byte_of 9)
  else if (byte_code c =? 34) || (byte_code c =? 92) || (byte_code c =? 47)
          || (byte_code c =? 39)
  then Some c
  else None.

(** [unquote s]: the text of the literal whose bytes between the quotes
    are [s]; escapes are replaced and ill-formed UTF-8 is coerced to
    U+FFFD.  [None] is what [unquoteBytes] reports with [ok = false]; the
    scanner lets no such literal through. *)
Fixpoint unquote (s : string) : option string :=
  match s with
  | EmptyString => Some EmptyString
  | String c rest =>
      if byte_code c =? 92 then
        match rest with
        | String e rest1 =>
            if byte_code e =? 117 then
              match rest1 with
              | String a (String b (String c' (String d rest2))) =>
                  match getu4 a b c' d with
                  | Some rr =>
                      if is_surrogate rr then
                        match surrogate_pair rr rest2 with
                        | Some dec =>
                            match rest2 with
                            | String _ (String _ (String _ (String _ (String _ (String _ rest3))))) =>
                                option_map (append (utf8_EncodeRune dec)) (unquote rest3)
                            | _ => None
                            end
                        | None =>
                            option_map (append replacement_char) (unquote rest2)
                        end
                      else option_map (append (utf8_EncodeRune rr)) (unquote rest2)
                  | None => None
                  end
              | _ => None
              end
            else
              match simple_escape e with
              | Some x => option_map (String x) (unquote rest1)
              | None => None
              end
        | EmptyString => None
        end
      else if (byte_code c =? 34) || (byte_code c <? 32) then None
      else if byte_code c <? 128 then option_map (String c) (unquote rest)
      else
        match utf8_width s, rest with
        | Some 2%nat, String c1 r2 =>
            option_map (fun t => String c (String c1 t)) (unquote r2)
        | Some 3%nat, String c1 (String c2 r3) =>
            option_map (fun t => String c (String c1 (String c2 t))) (unquote r3)
        | Some 4%nat, String c1 (String c2 (String c3 r4)) =>
            option_map (fun t => String c (String c1 (String c2 (String c3 t))))
              (unquote r4)
        | _, _ => option_map (append replacement_char) (unquote rest)
        end
  end.

(** *** The scanner ([scanner.go]) *)

(** [parseState]: what the scanner is in the middle of.  Each entry also
    holds what has been read of that object or array so far (newest
    first) and, for an object, the key read last. *)
Inductive frame : Type :=
| parseObjectKey (members : list (string * value)) (key : string)
| parseObjectValue (members : list (string * value)) (key : string)
| parseArrayValue (elems : list value).

(** The step functions of the scanner. *)
Inductive state : Type :=
| stateBeginValueOrEmpty | stateBeginValue
| stateBeginStringOrEmpty | stateBeginString
| stateEndValue | stateEndTop
| stateInString | stateInStringEsc
| stateInStringEscU | stateInStringEscU1 | stateInStringEscU12
| stateInStringEscU123
| stateNeg | state1 | state0 | stateDot | stateDot0
| stateE | stateESign | stateE0
| stateT | stateTr | stateTru
| stateF | stateFa | stateFal | stateFals
| stateN | stateNu | stateNul.

Record scanner : Type := mk_scanner {
  step : state;
  parseState : list frame;
  lit : string;          (* bytes of the literal being read, newest first *)
  top : option value     (* the top-level value, once it is complete *)
}.

Inductive result : Type :=
| Cont (s : scanner)
| Fail (e : error).

Definition maxNestingDepth : N := 10000.

Definition isSpace (c : ascii) : bool :=
  (byte_code c =? 32) || (byte_code c =? 9) || (byte_code c =? 13)
  || (byte_code c =? 10).

Definition is_digit (c : ascii) : bool := in_range 48 57 c.

Definition scan_error (c : ascii) (context : string) : result :=
  Fail (SyntaxError ("invalid character " ++ quoteChar c ++ " " ++ context)).

Definition goto (st : state) (s : scanner) : scanner :=
  mk_scanner st (parseState s) (lit s) (top s).

(** Keep [c] as part of the literal being read. *)
Definition keep (st : state) (c : ascii) (s : scanner) : result :=
  Cont (mk_scanner st (parseState s) (String c (lit s)) (top s)).

Definition begin_literal (st : state) (c : ascii) (s : scanner) : result :=
  Cont (mk_scanner st (parseState s) (str1 c) (top s)).

Definition pushParseState (c : ascii) (f : frame) (st : state) (s : scanner)
  : result :=
  if N.of_nat (length (f :: parseState s)) <=? maxNestingDepth
  then Cont (mk_scanner st (f :: parseState s) EmptyString (top s))
  else scan_error c "exceeded max depth".

(** A value is complete: it is the top-level value, the next element of
    the enclosing array or the value of the key read last; a string read
    where a key is expected is that key. *)
Definition emit (v : value) (stack : list frame) (s : scanner) : scanner :=
  match stack with
  | [] => mk_scanner stateEndValue [] EmptyString (Some v)
  | parseArrayValue es :: st =>
      mk_scanner stateEndValue (parseArrayValue (v :: es) :: st) EmptyString (top s)
  | parseObjectValue ms k :: st =>
      mk_scanner stateEndValue (parseObjectValue ((k, v) :: ms) k :: st)
        EmptyString (top s)
  | parseObjectKey ms k :: st =>
      let k' := match v with Str key => key | _ => k end in
      mk_scanner stateEndValue (parseObjectKey ms k' :: st) EmptyString (top s)
  end.

Definition end_literal (v : value) (s : scanner) : scanner :=
  emit v (parseState s) s.

Definition do_stateEndTop (s : scanner) (c : ascii) : result :=
  if isSpace c then Cont (goto stateEndTop s)
  else scan_error c "after top-level value".

Definition do_stateEndValue (s : scanner) (c : ascii) : result :=
  match parseState s with
  | [] => do_stateEndTop s c
  | ps :: st =>
      if isSpace c then Cont (goto stateEndValue s)
      else
        match ps with
        | parseObjectKey ms k =>
            if byte_code c =? 58 (* : *) then
              Cont (mk_scanner stateBeginValue (parseObjectValue ms k :: st)
                      EmptyString (top s))
            else scan_error c "after object key"
        | parseObjectValue ms k =>
            if byte_code c =? 44 (* , *) then
              Cont (mk_scanner stateBeginString (parseObjectKey ms k :: st)
                      EmptyString (top s))
            else if byte_code c =? 125 (* } *) then
              Cont (emit (Object (rev ms)) st s)
            else scan_error c "after object key:value pair"
        | parseArrayValue es =>
            if byte_code c =? 44 then Cont (goto stateBeginValue s)
            else if byte_code c =? 93 (* ] *) then
              Cont (emit (Array (rev es)) st s)
            else scan_error c "after array element"
        end
  end.

Definition do_stateBeginValue (s : scanner) (c : ascii) : result :=
  if isSpace c then Cont s
  else if byte_code c =? 123 (* { *) then
    pushParseState c (parseObjectKey [] EmptyString) stateBeginStringOrEmpty s
  else if byte_code c =? 91 (* [ *) then
    pushParseState c (parseArrayValue []) stateBeginValueOrEmpty s
  else if byte_code c =? 34 then
    Cont (mk_scanner stateInString (parseState s) EmptyString (top s))
  else if byte_code c =? 45 (* - *) then begin_literal stateNeg c s
  else if byte_code c =? 48 (* 0 *) then begin_literal state0 c s
  else if byte_code c =? 116 (* t *) then begin_literal stateT c s
  else if byte_code c =? 102 (* f *) then begin_literal stateF c s
  else if byte_code c =? 110 (* n *) then begin_literal stateN c s
  else if in_range 49 57 c then begin_literal state1 c s
  else scan_error c "looking for beginning of value".

Definition do_stateBeginString (s : scanner) (c : ascii) : result :=
  if isSpace c then Cont s
  else if byte_code c =? 34 then
    Cont (mk_scanner stateInString (parseState s) EmptyString (top s))
  else scan_error c "looking for beginning of object key string".

Definition do_stateBeginStringOrEmpty (s : scanner) (c : ascii) : result :=
  if isSpace c then Cont s
  else if byte_code c =? 125 then
    match parseState s with
    | parseObjectKey ms k :: st =>
        do_stateEndValue
          (mk_scanner (step s) (parseObjectValue ms k :: st) (lit s) (top s)) c
    | _ => do_stateEndValue s c
    end
  else do_stateBeginString s c.

Definition do_stateBeginValueOrEmpty (s : scanner) (c : ascii) : result :=
  if isSpace c then Cont s
  else if byte_code c =? 93 then do_stateEndValue s c
  else do_stateBeginValue s c.

(** The end of a number: the literal is complete and [c] is looked at as
    what follows a value. *)
Definition end_number (s : scanner) (c : ascii) : result :=
  do_stateEndValue (end_literal (Number (String.rev (lit s))) s) c.

Definition do_state0 (s : scanner) (c : ascii) : result :=
  if byte_code c =? 46 (* . *) then keep stateDot c s
  else if (byte_code c =? 101) || (byte_code c =? 69) then keep stateE c s
  else end_number s c.

Definition do_stateESign (s : scanner) (c : ascii) : result :=
  if is_digit c then keep stateE0 c s
  else scan_error c "in exponent of numeric literal".

(** One letter of [true], [false] or [null]. *)
Definition expect (want : ascii) (next : state) (name : string)
    (s : scanner) (c : ascii) : result :=
  if Ascii.eqb c want then keep next c s
  else scan_error c
         ("in literal " ++ name ++ " (expecting '" ++ str1 want ++ "')").

Definition expect_last (want : ascii) (v : value) (name : string)
    (s : scanner) (c : ascii) : result :=
  if Ascii.eqb c want then Cont (end_literal v s)
  else scan_error c
         ("in literal " ++ name ++ " (expecting '" ++ str1 want ++ "')").

Definition in_hex (next : state) (s : scanner) (c : ascii) : result :=
  match hex_value c with
  | Some _ => keep next c s
  | None => scan_error c "in \u hexadecimal character escape"
  end.

(** [s.step(s, c)]. *)
Definition scan (s : scanner) (c : ascii) : result :=
  match step s with
  | stateBeginValueOrEmpty => do_stateBeginValueOrEmpty s c
  | stateBeginValue => do_stateBeginValue s c
  | stateBeginStringOrEmpty => do_stateBeginStringOrEmpty s c
  | stateBeginString => do_stateBeginString s c
  | stateEndValue => do_stateEndValue s c
  | stateEndTop => do_stateEndTop s c
  | stateInString =>
      if byte_code c =? 34 then
        match unquote (String.rev (lit s)) with
        | Some text => Cont (end_literal (Str text) s)
        | None => scan_error c "in string literal"
        end
      else if byte_code c =? 92 then keep stateInStringEsc c s
      else if byte_code c <? 32 then scan_error c "in string literal"
      else keep stateInString c s
  | stateInStringEsc =>
      if (byte_code c =? 98) || (byte_code c =? 102) || (byte_code c =? 110)
         || (byte_code c =? 114) || (byte_code c =? 116) || (byte_code c =? 92)
         || (byte_code c =? 47) || (byte_code c =? 34)
      then keep stateInString c s
      else if byte_code c =? 117 then keep stateInStringEscU c s
      else scan_error c "in string escape code"
  | stateInStringEscU => in_hex stateInStringEscU1 s c
  | stateInStringEscU1 => in_hex stateInStringEscU12 s c
  | stateInStringEscU12 => in_hex stateInStringEscU123 s c
  | stateInStringEscU123 => in_hex stateInString s c
  | stateNeg =>
      if byte_code c =? 48 then keep state0 c s
      else if in_range 49 57 c then keep state1 c s
      else scan_error c "in numeric literal"
  | state1 => if is_digit c then keep state1 c s else do_state0 s c
  | state0 => do_state0 s c
  | stateDot =>
      if is_digit c then keep stateDot0 c s
      else scan_error c "after decimal point in numeric literal"
  | stateDot0 =>
      if is_digit c then keep stateDot0 c s
      else if (byte_code c =? 101) || (byte_code c =? 69) then keep stateE c s
      else end_number s c
  | stateE =>
      if (byte_code c =? 43) || (byte_code c =? 45) then keep stateESign c s
      else do_stateESign s c
  | stateESign => do_stateESign s c
  | stateE0 => if is_digit c then keep stateE0 c s else end_number s c
  | stateT => expect "r" stateTr "true" s c
  | stateTr => expect "u" stateTru "true" s c
  | stateTru => expect_last "e" (Bool true) "true" s c
  | stateF => expect "a" stateFa "false" s c
  | stateFa => expect "l" stateFal "false" s c
  | stateFal => expect "s" stateFals "false" s c
  | stateFals => expect_last "e" (Bool false) "false" s c
  | stateN => expect "u" stateNu "null" s c
  | stateNu => expect "l" stateNul "null" s c
  | stateNul => expect_last "l" Null "null" s c
  end.

(** [scanner.eof]: the input is complete when the scanner, shown a
    space, has reached the end of the top-level value. *)
Definition eof (s : scanner) : error + value :=
  match scan s " " with
  | Cont s' =>
      match step s', top s' with
      | stateEndTop, Some v => inr v
      | _, _ => inl (SyntaxError "unexpected end of JSON input")
      end
  | Fail e => inl e
  end.

Fixpoint scan_all (s : scanner) (data : string) : error + value :=
  match data with
  | EmptyString => eof s
  | String c rest =>
      match scan s c with
      | Cont s' => scan_all s' rest
      | Fail e => inl e
      end
  end.

(** [checkValid] followed by the scan the decoder makes: the error of a
    body that is not one JSON value, the value otherwise. *)
Definition parse (data : string) : error + value :=
  scan_all (mk_scanner stateBeginValue [] EmptyString None) data.

(** *** The decoder ([decode.go]) for the classifier's struct *)

(** [struct { Status string `json:"status"` }]. *)
Record health : Type := mk_health { Status : string }.

Definition to_upper (c : ascii) : ascii :=
  if in_range 97 122 c then byte_of (byte_code c - 32) else c.

(** The first rune of a key under Unicode simple case folding, as the
    upper-case ASCII letter of its folding class when there is one: an
    ASCII byte folds with its other case, U+017F (long s) folds with [S]
    and U+212A (Kelvin sign) with [K]. *)
Definition fold_head (key : string) : option (ascii * string) :=
  match key with
  | EmptyString => None
  | String c rest =>
      if byte_code c <? 128 then Some (to_upper c, rest)
      else
        match rest with
        | String c1 rest1 =>
            if (byte_code c =? 197) && (byte_code c1 =? 191)
            then Some ("S"%char, rest1)
            else
              match rest1 with
              | String c2 rest2 =>
                  if (byte_code c =? 226) && (byte_code c1 =? 132)
                     && (byte_code c2 =? 170)
                  then Some ("K"%char, rest2)
                  else None
              | EmptyString => None
              end
        | EmptyString => None
        end
  end.

(** [bytes.EqualFold] of a key with an ASCII field name: how the decoder
    finds the field of a key that is not spelled exactly like its tag. *)
Fixpoint equalFold (name key : string) : bool :=
  match name with
  | EmptyString => match key with EmptyString => true | _ => false end
  | String n name' =>
      match fold_head key with
      | Some (u, key') => Ascii.eqb u (to_upper n) && equalFold name' key'
      | None => false
      end
  end.

(** [d.saveError]: the first error is the one reported. *)
Definition saveError (e : error) (saved : option error) : option error :=
  match saved with
  | None => Some e
  | Some _ => saved
  end.

Definition kind_name (v : value) : string :=
  match v with
  | Null => "null"
  | Bool _ => "bool"
  | Number _ => "number"
  | Str _ => "string"
  | Array _ => "array"
  | Object _ => "object"
  end.

(** A value decoded into the [Status] field: a string is stored, [null]
    leaves the field as it is, anything else is a type error and decoding
    goes on. *)
Definition store_Status (v : value) (st : option error * health)
  : option error * health :=
  match v with
  | Str text => (fst st, mk_health text)
  | Null => st
  | _ => (saveError (UnmarshalTypeError (kind_name v) "status") (fst st), snd st)
  end.

(** [d.object]: the members in the order of the text. *)
Definition object (members : list (string * value)) (h : health)
  : option error * health :=
  fold_left
    (fun st kv => if equalFold "status" (fst kv) then store_Status (snd kv) st else st)
    members (None, h).

(** [json.Unmarshal(data, &h)]: the error returned ([None] is [nil]) and
    the struct afterwards. *)
Definition Unmarshal (data : string) (h : health) : option error * health :=
  match parse data with
  | inl e => (Some e, h)
  | inr (Object members) => object members h
  | inr Null => (None, h)
  | inr v => (Some (UnmarshalTypeError (kind_name v) ""), h)
  end.

End json.

(** ** [strings]: the two calls of [trimToOk]

    Lower-casing is modelled on ASCII letters and on the two letters outside
    ASCII whose lower case is an ASCII letter (U+0130, U+212A); other
    letters outside ASCII are copied as they are.  Bytes that are not
    well-formed UTF-8 become U+FFFD, as [strings.Map] writes them. *)
Module strings.

Definition lower (c : ascii) : ascii :=
  if in_range 65 90 c then byte_of (byte_code c + 32) else c.

Fixpoint ToLower (s : string) : string :=
  match s with
  | EmptyString => EmptyString
  | String c rest =>
      if byte_code c <? 128 then String (lower c) (ToLower rest)
      else
        match utf8_width s, rest with
        | Some 2%nat, String c1 r2 =>
            if (byte_code c =? 196) && (byte_code c1 =? 176)
            then String "i" (ToLower r2)
            else String c (String c1 (ToLower r2))
        | Some 3%nat, String c1 (String c2 r3) =>
            if (byte_code c =? 226) && (byte_code c1 =? 132)
               && (byte_code c2 =? 170)
            then String "k" (ToLower r3)
            else String c (String c1 (String c2 (ToLower r3)))
        | Some 4%nat, String c1 (String c2 (String c3 r4)) =>
            String c (String c1 (String c2 (String c3 (ToLower r4))))
        | _, _ => replacement_char ++ ToLower rest
        end
  end.

(** [unicode.IsSpace] on the encodings of the white space runes:
    U+0009..U+000D and U+0020; U+0085 and U+00A0; U+1680, U+2000..U+200A,
    U+2028, U+2029, U+202F, U+205F and U+3000. *)
Definition space1 (c : ascii) : bool :=
  in_range 9 13 c || (byte_code c =? 32).

Definition space2 (c0 c1 : ascii) : bool :=
  (byte_code c0 =? 194) && ((byte_code c1 =? 133) || (byte_code c1 =? 160)).

Definition space3 (c0 c1 c2 : ascii) : bool :=
  ((byte_code c0 =? 225) && (byte_code c1 =? 154) && (byte_code c2 =? 128))
  || ((byte_code c0 =? 226) && (byte_code c1 =? 128)
      && (in_range 128 138 c2 || in_range 168 169 c2 || (byte_code c2 =? 175)))
  || ((byte_code c0 =? 226) && (byte_code c1 =? 129) && (byte_code c2 =? 159))
  || ((byte_code c0 =? 227) && (byte_code c1 =? 128) && (byte_code c2 =? 128)).

Fixpoint TrimLeftSpace (s : string) : string :=
  match s with
  | EmptyString => EmptyString
  | String c0 r1 =>
      if space1 c0 then TrimLeftSpace r1
      else
        match r1 with
        | String c1 r2 =>
            if space2 c0 c1 then TrimLeftSpace r2
            else
              match r2 with
              | String c2 r3 => if space3 c0 c1 c2 then TrimLeftSpace r3 else s
              | EmptyString => s
              end
        | EmptyString => s
        end
  end.

(** The same from the end, on the bytes in reverse order. *)
Fixpoint trim_reversed (s : string) : string :=
  match s with
  | EmptyString => EmptyString
  | String c0 r1 =>
      if space1 c0 then trim_reversed r1
      else
        match r1 with
        | String c1 r2 =>
            if space2 c1 c0 then trim_reversed r2
            else
              match r2 with
              | String c2 r3 => if space3 c2 c1 c0 then trim_reversed r3 else s
              | EmptyString => s
              end
        | EmptyString => s
        end
  end.

Definition TrimRightSpace (s : string) : string :=
  String.rev (trim_reversed (String.rev s)).

Definition TrimSpace (s : string) : string :=
  TrimRightSpace (TrimLeftSpace s).

End strings.

Local Close Scope N_scope.

(** ** Data model ([main.go], lines 16-49) *)

(** [time.Time]: an instant.  [time.Now()] is read from the world the
    program runs in; [.UTC()] changes the location an instant is shown in,
    not the instant. *)
Definition Time : Type := Z.

Module ComponentConfig.
Record t : Type := mk {
  Name : string;
  Endpoint : string
}.
End ComponentConfig.

Module AppConfig.
Record t : Type := mk {
  Components : list ComponentConfig.t;
  CheckInterval : Z;
  LogDirectory : string;
  LogRetentionDays : Z;
  ListenAddress : string
}.
End AppConfig.

Module HealthComponent.
Record t : Type := mk {
  Name : string;
  Status : string;
  EndpointStatus : string;
  HTTPResult : string;
  LastChecked : Time;
  Error : string
}.
End HealthComponent.

Module HealthResponse.
Record t : Type := mk {
  Status : string;
  Components : list HealthComponent.t
}.
End HealthResponse.

(** [StatusMap]: the mutex [mu] is held for the whole of every access, so
    each access below is one atomic step on the map. *)
Module StatusMap.
Record t : Type := mk {
  Components : gmap string HealthComponent.t
}.
End StatusMap.

(** ** The status store (lines 51-69) *)

Definition NewStatusMap : StatusMap.t := StatusMap.mk ∅.

(** [s.Update(name, status)]; [now] is what [time.Now()] returns. *)
Definition Update (s : StatusMap.t) (name status : string) (now : Time)
  : StatusMap.t :=
  StatusMap.mk
    (<[name := HealthComponent.mk name status "" "" now ""]>
       (StatusMap.Components s)).

(** [for _, v := range m]: every entry is visited once, in an order that Go
    leaves unspecified and that may change from one loop to the next.
    [range_values m l]: the loop may visit the values in the order [l]. *)
Definition range_values {V : Type} (m : gmap string V) (l : list V) : Prop :=
  l ≡ₚ (map_to_list m).*2.

(** [s.GetAll()] may return [components]. *)
Definition GetAll (s : StatusMap.t) (components : list HealthComponent.t)
  : Prop :=
  range_values (StatusMap.Components s) components.

(** ** The outside world of a probe *)

(** [*url.Error]: the type of every error [client.Get] returns, the
    failures of the transport ([Op] is ["Get"]) as well as a URL that does
    not parse ([Op] is ["parse"]).  [Err] is the text of the error it
    wraps. *)
Module url.
Record Error : Type := mk_Error {
  Op : string;
  URL : string;
  Err : string
}.

(** The method [Error()] of [*url.Error]:
    [fmt.Sprintf("%s %q: %s", e.Op, e.URL, e.Err)]. *)
Definition Error_Error (e : Error) : string :=
  Op e ++ " " ++ strconv.Quote (URL e) ++ ": " ++ Err e.
End url.

Module http.
(** What [checkComponents] reads of a [*http.Response]: the status line
    without the protocol (["200 OK"]), the status code, and the bytes
    [io.ReadAll] got from the body. *)
Record Response : Type := mk_Response {
  Status : string;
  StatusCode : Z;
  Body : string
}.

(** [resp, err := client.Get(url)]: [GetErr err] is a non-nil [err]
    (connection refused, timeout, DNS failure, malformed URL, ...),
    [GetOk resp] a nil one. *)
Inductive GetResult : Type :=
| GetErr (err : url.Error)
| GetOk (resp : Response).
End http.

(** The answers of the world: what the [n]-th call of [client.Get] of the
    process returns for the URL it is given, and what the [n]-th reading of
    the clock returns. *)
Record World : Type := mk_World {
  client_Get : nat -> string -> http.GetResult;
  time_Now : nat -> Time
}.

(** ** The classifier and the prober (lines 98-172) *)

(** [trimToOk] (lines 169-172). *)
Definition trimToOk (s : string) : bool :=
  let trimmed := strings.TrimSpace (strings.ToLower s) in
  String.eqb trimmed "ok".

(** The four variables of a loop iteration that end up in the record and
    in the log entry. *)
Record verdict : Type := mk_verdict {
  status : string;
  endpointStatus : string;
  httpResult : string;
  errMsg : string
}.

(** What running a piece of the program gives: it returns, or it panics
    (a run-time error that nothing recovers: the process dies). *)
Inductive Run (A : Type) : Type :=
| Returns (a : A)
| Panics.
Arguments Returns {A} a.
Arguments Panics {A}.

(** Lines 102-137: the verdict on the outcome of [client.Get].  This is the
    Health Classifier; the source has it inline in the loop of
    [checkComponents].  [decErr.Error()] on a nil [decErr] (line 134) is a
    nil-pointer dereference. *)
Definition classify (r : http.GetResult) : Run verdict :=
  let status := "unknown" in
  let endpointStatus := "not ok" in
  let httpResult := "" in
  let errMsg := "" in
  match r with
  | http.GetErr err =>
      let status := "unreachable" in
      let httpResult := url.Error_Error err in
      let errMsg := url.Error_Error err in
      Returns (mk_verdict status endpointStatus httpResult errMsg)
  | http.GetOk resp =>
      let httpResult := http.Status resp in
      let bodyBytes := http.Body resp in
      let (decErr, health) := json.Unmarshal bodyBytes (json.mk_health "") in
      if bool_decide (decErr = None) && String.eqb (json.Status health) "ok"
      then Returns (mk_verdict "ok" "ok" httpResult errMsg)
      else
        let bodyStr := bodyBytes in
        if (http.StatusCode resp =? 200)%Z
           && ((String.length bodyStr =? 0)%nat || trimToOk bodyStr)
        then Returns (mk_verdict "ok" "ok" httpResult errMsg)
        else if (http.StatusCode resp =? 200)%Z
        then Returns (mk_verdict "ok" "ok" httpResult errMsg)
        else
          let status := "invalid_response" in
          match decErr with
          | Some e =>
              let errMsg := json.Error e in
              Returns (mk_verdict status endpointStatus httpResult errMsg)
          | None => Panics
          end
  end.

(** The anonymous struct [logEntry] (lines 148-162); the logger gets its
    JSON text, one line per entry. *)
Module logEntry.
Record t : Type := mk {
  Time : Time;
  Component : string;
  Status : string;
  EndpointStatus : string;
  HTTPResult : string;
  Error : string
}.
End logEntry.

(** What a cycle does that others can see. *)
Inductive Event : Type :=
| EvGet (url : string)                 (* client.Get(url) *)
| EvStore (r : HealthComponent.t)      (* statusMap.Components[r.Name] = r *)
| EvLog (e : logEntry.t).              (* logger.Println of the entry *)

(** The state a cycle works on: the store, what has happened so far
    (oldest first), and how many requests and clock readings the process
    has made. *)
Record Process : Type := mk_Process {
  statusMap : StatusMap.t;
  events : list Event;
  gets : nat;
  ticks : nat
}.

(** Lines 138-147: the record of a verdict, and its write into the store. *)
Definition record_of (c : ComponentConfig.t) (v : verdict) (now : Time)
  : HealthComponent.t :=
  HealthComponent.mk (ComponentConfig.Name c) (status v) (endpointStatus v)
    (httpResult v) now (errMsg v).

Definition store (r : HealthComponent.t) (s : StatusMap.t) : StatusMap.t :=
  StatusMap.mk (<[HealthComponent.Name r := r]> (StatusMap.Components s)).

(** Lines 148-162. *)
Definition entry_of (c : ComponentConfig.t) (v : verdict) (now : Time)
  : logEntry.t :=
  logEntry.mk now (ComponentConfig.Name c) (status v) (endpointStatus v)
    (httpResult v) (errMsg v).

(** How a piece of the program that works on the process ends: it returns,
    or it panics; either way the process is left in some state. *)
Inductive Outcome : Type :=
| Returned (p : Process)
| Panicked (p : Process).

Definition final (o : Outcome) : Process :=
  match o with
  | Returned p => p
  | Panicked p => p
  end.

(** One iteration of the loop of [checkComponents] (lines 102-164). *)
Definition probe (W : World) (c : ComponentConfig.t) (p : Process) : Outcome :=
  let url := ComponentConfig.Endpoint c in
  let r := client_Get W (gets p) url in
  let p1 := mk_Process (statusMap p) (events p ++ [EvGet url]) (S (gets p)) (ticks p) in
  match classify r with
  | Panics => Panicked p1
  | Returns v =>
      let rec := record_of c v (time_Now W (ticks p1)) in
      let entry := entry_of c v (time_Now W (S (ticks p1))) in
      Returned (mk_Process (store rec (statusMap p1))
                  (events p1 ++ [EvStore rec; EvLog entry])
                  (gets p1) (S (S (ticks p1))))
  end.

(** [for _, c := range cfg.Components { ... }]. *)
Fixpoint probe_all (W : World) (components : list ComponentConfig.t)
    (p : Process) : Outcome :=
  match components with
  | [] => Returned p
  | c :: rest =>
      match probe W c p with
      | Returned p' => probe_all W rest p'
      | Panicked p' => Panicked p'
      end
  end.

(** [checkComponents(cfg, statusMap, logger)] (lines 99-166). *)
Definition checkComponents (W : World) (cfg : AppConfig.t) (p : Process)
  : Outcome :=
  probe_all W (AppConfig.Components cfg) p.

(** ** The [/health] handler (lines 187-202) *)

(** The loop of lines 190-196, [status] being the variable of that name. *)
Fixpoint aggregate (components : list HealthComponent.t) (status : string)
  : string :=
  match components with
  | [] => status
  | c :: rest =>
      if negb (String.eqb (HealthComponent.Status c) "ok")
      then "degraded"
      else aggregate rest status
  end.

(** The response built from the snapshot [components]. *)
Definition health_report (components : list HealthComponent.t)
  : HealthResponse.t :=
  let status := "ok" in
  HealthResponse.mk (aggregate components status) components.

(** The handler may answer [resp] when the store is [s]. *)
Definition health_handler (s : StatusMap.t) (resp : HealthResponse.t) : Prop :=
  exists components, GetAll s components /\ resp = health_report components.

(** ** Sequences of store operations

    Everything the program does to a [StatusMap]: the two writes ([Update]
    and the write of [checkComponents]) and the read of [GetAll]. *)
Inductive StoreOp : Type :=
| OpUpdate (name status : string) (now : Time)
| OpProbeWrite (c : ComponentConfig.t) (v : verdict) (now : Time)
| OpGetAll.

Definition apply_op (s : StatusMap.t) (op : StoreOp) : StatusMap.t :=
  match op with
  | OpUpdate name status now => Update s name status now
  | OpProbeWrite c v now => store (record_of c v now) s
  | OpGetAll => s
  end.

Definition apply_ops (ops : list StoreOp) (s : StatusMap.t) : StatusMap.t :=
  fold_left apply_op ops s.

(** The record an operation writes, if it writes. *)
Definition written (op : StoreOp) : option HealthComponent.t :=
  match op with
  | OpUpdate name status now => Some (HealthComponent.mk name status "" "" now "")
  | OpProbeWrite c v now => Some (record_of c v now)
  | OpGetAll => None
  end.

(** The record of the last write for [name] among [ops]. *)
Definition last_written (name : string) (ops : list StoreOp)
  : option HealthComponent.t :=
  last (filter (fun r => HealthComponent.Name r = name) (omap written ops)).

(** Every record is filed under its own name. *)
Definition well_keyed (s : StatusMap.t) : Prop :=
  forall k r, StatusMap.Components s !! k = Some r -> HealthComponent.Name r = k.

(** The records a list of events stores, oldest first. *)
Definition stored (es : list Event) : list HealthComponent.t :=
  omap (fun e => match e with EvStore r => Some r | _ => None end) es.

(** The vocabulary of verdicts a probe can store. *)
Definition probe_statuses : list string :=
  ["ok"; "unreachable"; "invalid_response"].

(** What one completed probe of [c] does, when its verdict is [v] and the
    clock shows [t1] at the write and [t2] at the log entry. *)
Definition visible (c : ComponentConfig.t) (v : verdict) (t1 t2 : Time)
  : list Event :=
  [EvGet (ComponentConfig.Endpoint c);
   EvStore (record_of c v t1);
   EvLog (entry_of c v t2)].

(** A log entry mirrors a record: same component, status, endpoint status,
    HTTP result and error. *)
Definition mirrors (e : logEntry.t) (r : HealthComponent.t) : Prop :=
  logEntry.Component e = HealthComponent.Name r
  /\ logEntry.Status e = HealthComponent.Status r
  /\ logEntry.EndpointStatus e = HealthComponent.EndpointStatus r
  /\ logEntry.HTTPResult e = HealthComponent.HTTPResult r
  /\ logEntry.Error e = HealthComponent.Error r.

(** ** Inputs used in examples *)

(** [{"status":"ok"}] and [{"status":"down"}]. *)
Definition body_status (value : string) : string :=
  "{" ++ quoted "status" ++ ":" ++ quoted value ++ "}".

Definition resp_503 (body : string) : http.Response :=
  http.mk_Response "503 Service Unavailable" 503%Z body.

(** A refused connection, as [client.Get] reports it. *)
Definition refused : url.Error :=
  url.mk_Error "Get" "http://127.0.0.1:9/health"
    "dial tcp 127.0.0.1:9: connect: connection refused".

Definition refused_text : string :=
  "Get " ++ quoted "http://127.0.0.1:9/health"
  ++ ": dial tcp 127.0.0.1:9: connect: connection refused".

Definition cache : ComponentConfig.t :=
  ComponentConfig.mk "cache" "http://127.0.0.1:9/health".

(** A process that has just started: empty store, nothing done yet. *)
Definition start : Process := mk_Process NewStatusMap [] 0 0.

(** A world in which every connection is refused. *)
Definition world_refusing : World :=
  mk_World (fun _ _ => http.GetErr refused) Z.of_nat.

(** Two components; [a] answers [503 {"status":"down"}], every other
    endpoint [200 {"status":"ok"}]. *)
Definition cfg_ab : AppConfig.t :=
  AppConfig.mk
    [ComponentConfig.mk "a" "http://a.internal/health";
     ComponentConfig.mk "b" "http://b.internal/health"]
    30%Z "logs" 7%Z ":8081".

Definition world_a_down : World :=
  mk_World
    (fun _ url =>
       if String.eqb url "http://a.internal/health"
       then http.GetOk (resp_503 (body_status "down"))
       else http.GetOk (http.mk_Response "200 OK" 200%Z (body_status "ok")))
    Z.of_nat.

(** The two records of [TestStatusMap_UpdateAndGetAll]. *)
Definition db_record : HealthComponent.t :=
  HealthComponent.mk "db" "ok" "ok" "200 OK" 0%Z "".

Definition cache_record : HealthComponent.t :=
  HealthComponent.mk "cache" "degraded" "not ok" "503 Service Unavailable" 0%Z "".

Definition db_and_cache : StatusMap.t :=
  store cache_record (store db_record NewStatusMap).

(** Three writes: a probe of [db], an [Update] of [cache], an [Update] of
    [db]. *)
Definition write_db_probe : StoreOp :=
  OpProbeWrite (ComponentConfig.mk "db" "http://db.internal/health")
    (mk_verdict "ok" "ok" "200 OK" "") 1%Z.

Definition write_cache : StoreOp := OpUpdate "cache" "degraded" 2%Z.

Definition write_db : StoreOp := OpUpdate "db" "ok" 3%Z.

(** A world in which every endpoint answers [200 OK] with the body
    [{"status":"ok"}], as the servers of [TestHealthEndpoint] do. *)
Definition world_all_ok : World :=
  mk_World
    (fun _ _ => http.GetOk (http.mk_Response "200 OK" 200 (body_status "ok")))
    Z.of_nat.

(** ** The scheduler (lines 175-183) *)

(** The value an [int64] holds after an operation whose exact result is
    [z]. *)
Definition wrap_int64 (z : Z) : Z :=
  ((z + 9223372036854775808) mod 18446744073709551616 - 9223372036854775808)%Z.

(** [time.Duration(cfg.CheckInterval) * time.Second]: nanoseconds, in an
    [int64]. *)
Definition check_interval (cfg : AppConfig.t) : Z :=
  wrap_int64 (AppConfig.CheckInterval cfg * 1000000000).

(** The first [n] turns of the loop
    [for { checkComponents(cfg, statusMap, logger); time.Sleep(interval) }]:
    how they end, and the durations given to [time.Sleep], oldest first.  A
    panic in a cycle ends the process. *)
Fixpoint health_checks (W : World) (cfg : AppConfig.t) (interval : Z)
    (n : nat) (p : Process) : Outcome * list Z :=
  match n with
  | O => (Returned p, [])
  | S n' =>
      match checkComponents W cfg p with
      | Returned p' =>
          let (o, slept) := health_checks W cfg interval n' p' in
          (o, interval :: slept)
      | Panicked p' => (Panicked p', [])
      end
  end.

(** The goroutine of [startHealthChecks], up to its [n]-th turn. *)
Definition startHealthChecks (W : World) (cfg : AppConfig.t) (n : nat)
    (p : Process) : Outcome * list Z :=
  let interval := check_interval cfg in
  health_checks W cfg interval n p.

(** ** Log retention (lines 209-225) *)

Module os.
(** What [cleanupLogs] reads of an [fs.FileInfo]. *)
Record FileInfo : Type := mk_FileInfo {
  IsRegular : bool;     (* info.Mode().IsRegular() *)
  ModTime : Time
}.

(** An entry of [os.ReadDir]: its name, and what [f.Info()] returns
    ([None] when it returns an error). *)
Record DirEntry : Type := mk_DirEntry {
  Name : string;
  Info : option FileInfo
}.
End os.

(** What [cleanupLogs] does that others can see. *)
Inductive CleanupEvent : Type :=
| EvPrintf (msg : string)       (* logger.Printf, the text printed *)
| EvRemove (path : string).     (* os.Remove(path); its result is ignored *)

Section cleanup.

(** [t.AddDate(years, months, days)] and [filepath.Join(dir, name)] are
    taken as they are. *)
Variable time_AddDate : Time -> Z -> Z -> Z -> Time.
Variable filepath_Join : string -> string -> string.

(** The loop of lines 216-224. *)
Fixpoint cleanup_files (logDir : string) (cutoff : Time)
    (files : list os.DirEntry) : list CleanupEvent :=
  match files with
  | [] => []
  | f :: rest =>
      match os.Info f with
      | None => cleanup_files logDir cutoff rest
      | Some info =>
          if os.IsRegular info && (os.ModTime info <? cutoff)%Z
          then EvRemove (filepath_Join logDir (os.Name f))
                 :: cleanup_files logDir cutoff rest
          else cleanup_files logDir cutoff rest
      end
  end.

(** [cleanupLogs(logDir, retentionDays, logger)]; [now] is what
    [time.Now()] returns and [ReadDir] what [os.ReadDir(logDir)] returns,
    the text of its error or the entries. *)
Definition cleanupLogs (now : Time) (ReadDir : string + list os.DirEntry)
    (logDir : string) (retentionDays : Z) : list CleanupEvent :=
  let cutoff := time_AddDate now 0 0 (wrap_int64 (- retentionDays)) in
  match ReadDir with
  | inl err => [EvPrintf ("Failed to read log dir: " ++ err)]
  | inr files => cleanup_files logDir cutoff files
  end.

End cleanup.

(** A log directory: an old log, today's log, a log exactly at the cutoff,
    an old sub-directory, an old file that is not a log, and an entry whose
    [Info()] fails. *)
Definition log_dir_entries : list os.DirEntry :=
  [os.mk_DirEntry "2025-01-01.log" (Some (os.mk_FileInfo true 10%Z));
   os.mk_DirEntry "2025-01-09.log" (Some (os.mk_FileInfo true 90%Z));
   os.mk_DirEntry "2025-01-05.log" (Some (os.mk_FileInfo true 50%Z));
   os.mk_DirEntry "archive" (Some (os.mk_FileInfo false 10%Z));
   os.mk_DirEntry "notes.txt" (Some (os.mk_FileInfo true 20%Z));
   os.mk_DirEntry "gone.log" None].

(** Stand-ins for the two library functions, for examples: time counted in
    days, and paths joined with a slash. *)
Definition days_AddDate (t : Time) (years months days : Z) : Time :=
  (t + days)%Z.

Definition slash_Join (dir name : string) : string := dir ++ "/" ++ name.

(** * Properties *)

Local Open Scope list_scope.

(** ** The decoder on the bodies used below *)

Lemma Unmarshal_status_ok :
  json.Unmarshal (body_status "ok") (json.mk_health "")
  = (None, json.mk_health "ok").
Proof. vm_compute. reflexivity. Qed.

Lemma Unmarshal_status_down :
  json.Unmarshal (body_status "down") (json.mk_health "")
  = (None, json.mk_health "down").
Proof. vm_compute. reflexivity. Qed.

Example Unmarshal_empty_body :
  json.Unmarshal "" (json.mk_health "")
  = (Some (json.SyntaxError "unexpected end of JSON input"), json.mk_health "").
Proof. vm_compute. reflexivity. Qed.

Example Unmarshal_plain_text :
  json.Unmarshal "Service Unavailable" (json.mk_health "")
  = (Some (json.SyntaxError
             "invalid character 'S' looking for beginning of value"),
     json.mk_health "").
Proof. vm_compute. reflexivity. Qed.

Example Unmarshal_empty_object :
  json.Unmarshal "{}" (json.mk_health "") = (None, json.mk_health "").
Proof. vm_compute. reflexivity. Qed.

Example Unmarshal_number_status :
  option_map json.Error
    (fst (json.Unmarshal ("{" ++ quoted "Status" ++ ": 1}")%string
            (json.mk_health "")))
  = Some "json: cannot unmarshal number into Go struct field .status of type string".
Proof. vm_compute. reflexivity. Qed.

Example trimToOk_examples :
  trimToOk "  OK " = true /\ trimToOk "ok" = true /\ trimToOk "okay" = false
  /\ trimToOk "" = false.
Proof. vm_compute. repeat split. Qed.

(** ** The classifier *)

(** The five ways out of the classifier, each on an input that takes it. *)
Example classify_examples :
  classify (http.GetErr refused)
    = Returns (mk_verdict "unreachable" "not ok" refused_text refused_text)
  /\ classify (http.GetOk (http.mk_Response "200 OK" 200 (body_status "ok")))
    = Returns (mk_verdict "ok" "ok" "200 OK" "")
  /\ classify (http.GetOk (http.mk_Response "200 OK" 200 ""))
    = Returns (mk_verdict "ok" "ok" "200 OK" "")
  /\ classify (http.GetOk (http.mk_Response "200 OK" 200 (body_status "down")))
    = Returns (mk_verdict "ok" "ok" "200 OK" "")
  /\ classify (http.GetOk (resp_503 "Service Unavailable"))
    = Returns (mk_verdict "invalid_response" "not ok" "503 Service Unavailable"
                 "invalid character 'S' looking for beginning of value")
  /\ classify (http.GetOk (resp_503 "{}")) = Panics.
Proof. vm_compute. repeat split. Qed.

(** The classifier reads the body only through the decoder and, on a 200,
    through the plain-text test: its four ways out, by what the decoder
    returned. *)
Lemma classify_GetOk (resp : http.Response) :
  classify (http.GetOk resp) =
    match json.Unmarshal (http.Body resp) (json.mk_health "") with
    | (decErr, health) =>
        if bool_decide (decErr = None) && String.eqb (json.Status health) "ok"
        then Returns (mk_verdict "ok" "ok" (http.Status resp) "")
        else if (http.StatusCode resp =? 200)%Z
        then Returns (mk_verdict "ok" "ok" (http.Status resp) "")
        else match decErr with
             | Some e =>
                 Returns (mk_verdict "invalid_response" "not ok"
                            (http.Status resp) (json.Error e))
             | None => Panics
             end
    end.
Proof.
  unfold classify.
  destruct (json.Unmarshal (http.Body resp) (json.mk_health "")) as [decErr health].
  destruct (bool_decide (decErr = None) && String.eqb (json.Status health) "ok");
    [reflexivity|].
  destruct (http.StatusCode resp =? 200)%Z; [|reflexivity].
  cbn [andb].
  destruct ((String.length (http.Body resp) =? 0)%nat || trimToOk (http.Body resp));
    reflexivity.
Qed.

(** A body that decodes without error to the status ["ok"] is accepted
    before the status code is looked at. *)
Lemma classify_json_ok (resp : http.Response) (health : json.health) :
  json.Unmarshal (http.Body resp) (json.mk_health "") = (None, health) ->
  json.Status health = "ok" ->
  classify (http.GetOk resp)
  = Returns (mk_verdict "ok" "ok" (http.Status resp) "").
Proof.
  intros Hdec Hst. rewrite classify_GetOk, Hdec, Hst. reflexivity.
Qed.

(** A body that decodes without error to a status other than ["ok"], on a
    response that is not a 200, takes the classifier to line 134 with a nil
    [decErr]. *)
Lemma classify_nil_decErr (resp : http.Response) (health : json.health) :
  json.Unmarshal (http.Body resp) (json.mk_health "") = (None, health) ->
  json.Status health <> "ok" ->
  http.StatusCode resp <> 200%Z ->
  classify (http.GetOk resp) = Panics.
Proof.
  intros Hdec Hst Hcode. rewrite classify_GetOk, Hdec.
  apply String.eqb_neq in Hst. rewrite Hst.
  apply Z.eqb_neq in Hcode. rewrite Hcode.
  rewrite andb_false_r. reflexivity.
Qed.

(** Every verdict the classifier returns is one of the three a probe can
    store. *)
Lemma classify_status (r : http.GetResult) (v : verdict) :
  classify r = Returns v -> status v ∈ probe_statuses.
Proof.
  unfold probe_statuses. destruct r as [text|resp].
  - cbn. intros [= <-]. cbn. set_solver.
  - rewrite classify_GetOk.
    destruct (json.Unmarshal _ _) as [decErr health].
    destruct (_ && _); [intros [= <-]; cbn; set_solver|].
    destruct (_ =? _)%Z; [intros [= <-]; cbn; set_solver|].
    destruct decErr; [intros [= <-]; cbn; set_solver|discriminate].
Qed.

(** C1: a probe response with a non-200 status code whose body is a valid
    JSON object with a [status] other than ["ok"] should be classified as
    [invalid_response] without crashing.  On the response
    [503 {"status":"down"}] the classifier panics instead: the decoder
    returned no error, and line 134 calls [Error()] on it. *)
Theorem classify_503_status_down_panics :
  classify (http.GetOk (resp_503 (body_status "down"))) = Panics.
Proof.
  apply (classify_nil_decErr _ (json.mk_health "down")).
  - exact Unmarshal_status_down.
  - discriminate.
  - discriminate.
Qed.

(** C2, as stated, fails: the body [{"status":"ok"}] with the status code
    503 is classified [ok], not [invalid_response]. *)
Lemma status_ok_503_not_invalid_response :
  ~ (forall resp : http.Response,
       http.Body resp = body_status "ok" ->
       http.StatusCode resp <> 200%Z ->
       exists v, classify (http.GetOk resp) = Returns v
                 /\ status v = "invalid_response").
Proof.
  intros H.
  destruct (H (resp_503 (body_status "ok")) eq_refl) as (v & Hv & Hs);
    [discriminate|].
  vm_compute in Hv. injection Hv as <-. discriminate Hs.
Qed.

(** C2, amended: a response whose body is the JSON object
    [{"status":"ok"}] is classified [ok] (status [ok], endpoint status
    [ok], no error) whatever its status line and status code: the JSON
    test of line 120 comes first and does not look at the code. *)
Theorem classify_status_ok_any_code (line : string) (code : Z) :
  classify (http.GetOk (http.mk_Response line code (body_status "ok")))
  = Returns (mk_verdict "ok" "ok" line "").
Proof.
  rewrite classify_GetOk. cbn [http.Body http.Status http.StatusCode].
  rewrite Unmarshal_status_ok. reflexivity.
Qed.

(** C3: a response with status code 200 is classified [ok], with endpoint
    status [ok], whatever its body; the classifier returns (no panic), the
    HTTP result is the status line and there is no error text. *)
Theorem classify_200_ok (line body : string) :
  classify (http.GetOk (http.mk_Response line 200%Z body))
  = Returns (mk_verdict "ok" "ok" line "").
Proof.
  rewrite classify_GetOk. cbn [http.Body http.Status http.StatusCode].
  destruct (json.Unmarshal body (json.mk_health "")) as [decErr health].
  destruct (bool_decide (decErr = None) && String.eqb (json.Status health) "ok");
    reflexivity.
Qed.

(** ** One probe *)

Lemma probe_Returns (W : World) (c : ComponentConfig.t) (p : Process)
    (v : verdict) :
  classify (client_Get W (gets p) (ComponentConfig.Endpoint c)) = Returns v ->
  probe W c p =
    Returned
      (mk_Process
         (store (record_of c v (time_Now W (ticks p))) (statusMap p))
         (events p ++
            [EvGet (ComponentConfig.Endpoint c);
             EvStore (record_of c v (time_Now W (ticks p)));
             EvLog (entry_of c v (time_Now W (S (ticks p))))])
         (S (gets p)) (S (S (ticks p)))).
Proof.
  intros Hv. unfold probe. rewrite Hv. cbn.
  rewrite <- app_assoc. reflexivity.
Qed.

Lemma probe_Panics (W : World) (c : ComponentConfig.t) (p : Process) :
  classify (client_Get W (gets p) (ComponentConfig.Endpoint c)) = Panics ->
  probe W c p =
    Panicked
      (mk_Process (statusMap p)
         (events p ++ [EvGet (ComponentConfig.Endpoint c)])
         (S (gets p)) (ticks p)).
Proof. intros Hv. unfold probe. rewrite Hv. reflexivity. Qed.

Lemma lookup_store (r : HealthComponent.t) (s : StatusMap.t) :
  StatusMap.Components (store r s) !! HealthComponent.Name r = Some r.
Proof. apply lookup_insert_eq. Qed.

Lemma lookup_store_ne (r : HealthComponent.t) (s : StatusMap.t) (k : string) :
  HealthComponent.Name r <> k ->
  StatusMap.Components (store r s) !! k = StatusMap.Components s !! k.
Proof. intros Hne. apply lookup_insert_ne. exact Hne. Qed.

(** The text of an error of [client.Get] is never empty. *)
Lemma url_Error_nonempty (err : url.Error) : url.Error_Error err <> "".
Proof.
  unfold url.Error_Error. destruct (url.Op err); discriminate.
Qed.

Lemma probe_GetErr (W : World) (c : ComponentConfig.t) (p : Process)
    (err : url.Error) :
  client_Get W (gets p) (ComponentConfig.Endpoint c) = http.GetErr err ->
  let v := mk_verdict "unreachable" "not ok"
             (url.Error_Error err) (url.Error_Error err) in
  probe W c p =
    Returned
      (mk_Process
         (store (record_of c v (time_Now W (ticks p))) (statusMap p))
         (events p ++
            [EvGet (ComponentConfig.Endpoint c);
             EvStore (record_of c v (time_Now W (ticks p)));
             EvLog (entry_of c v (time_Now W (S (ticks p))))])
         (S (gets p)) (S (S (ticks p)))).
Proof.
  intros Hget v. apply probe_Returns. rewrite Hget. reflexivity.
Qed.

(** C4, as stated, fails on the endpoint status: the record stored for a
    refused connection has ["not ok"], with a space, which is not the
    claim's ["not_ok"]. *)
Lemma refused_record_endpoint_status :
  exists p r,
    probe world_refusing cache start = Returned p
    /\ StatusMap.Components (statusMap p) !! "cache" = Some r
    /\ HealthComponent.Status r = "unreachable"
    /\ HealthComponent.EndpointStatus r = "not ok"
    /\ HealthComponent.EndpointStatus r <> "not_ok".
Proof.
  eexists. eexists. split.
  - apply (probe_GetErr world_refusing cache start refused). reflexivity.
  - split.
    + apply (lookup_store
               (record_of cache
                  (mk_verdict "unreachable" "not ok"
                     (url.Error_Error refused) (url.Error_Error refused)) 0%Z)).
    + repeat split. discriminate.
Qed.

(** C4, amended: when the transport call of a probe fails, the probe
    returns and the record stored under the component's name has status
    ["unreachable"], endpoint status ["not ok"] (with a space), the text of
    the transport error as HTTP result and the same text as error, and this
    error is not empty. *)
Theorem transport_failure_record (W : World) (c : ComponentConfig.t)
    (p : Process) (err : url.Error) :
  client_Get W (gets p) (ComponentConfig.Endpoint c) = http.GetErr err ->
  exists p' r,
    probe W c p = Returned p'
    /\ StatusMap.Components (statusMap p') !! ComponentConfig.Name c = Some r
    /\ HealthComponent.Name r = ComponentConfig.Name c
    /\ HealthComponent.Status r = "unreachable"
    /\ HealthComponent.EndpointStatus r = "not ok"
    /\ HealthComponent.HTTPResult r = url.Error_Error err
    /\ HealthComponent.Error r = url.Error_Error err
    /\ HealthComponent.Error r <> "".
Proof.
  intros Hget. eexists. eexists. split.
  - apply (probe_GetErr W c p err Hget).
  - split.
    + apply (lookup_store
               (record_of c
                  (mk_verdict "unreachable" "not ok"
                     (url.Error_Error err) (url.Error_Error err))
                  (time_Now W (ticks p)))).
    + repeat split. apply url_Error_nonempty.
Qed.

Lemma transport_failure_record_witness :
  exists p' r,
    probe world_refusing cache start = Returned p'
    /\ StatusMap.Components (statusMap p') !! ComponentConfig.Name cache = Some r
    /\ HealthComponent.Name r = ComponentConfig.Name cache
    /\ HealthComponent.Status r = "unreachable"
    /\ HealthComponent.EndpointStatus r = "not ok"
    /\ HealthComponent.HTTPResult r = url.Error_Error refused
    /\ HealthComponent.Error r = url.Error_Error refused
    /\ HealthComponent.Error r <> "".
Proof.
  apply (transport_failure_record world_refusing cache start refused).
  reflexivity.
Defined.

(** ** The aggregate status *)

Lemma aggregate_ok (components : list HealthComponent.t) :
  aggregate components "ok" =
    if decide (Forall (fun r => HealthComponent.Status r = "ok") components)
    then "ok" else "degraded".
Proof.
  induction components as [|c rest IH]; cbn [aggregate].
  - destruct (decide _) as [_|Hno]; [reflexivity|].
    exfalso. apply Hno. constructor.
  - destruct (String.eqb (HealthComponent.Status c) "ok") eqn:Hc; cbn [negb].
    + apply String.eqb_eq in Hc. rewrite IH.
      destruct (decide (Forall _ rest)) as [Hall|Hno];
        destruct (decide (Forall _ (c :: rest))) as [Hall'|Hno'];
        try reflexivity.
      * exfalso. apply Hno'. constructor; assumption.
      * exfalso. apply Hno. inversion Hall'; assumption.
    + apply String.eqb_neq in Hc.
      destruct (decide (Forall _ (c :: rest))) as [Hall'|Hno']; [|reflexivity].
      exfalso. apply Hc. inversion Hall'; assumption.
Qed.

(** C5: the status of the report built from a snapshot is ["ok"] if the
    status of every record of the snapshot is ["ok"] and ["degraded"]
    otherwise; for the empty snapshot it is ["ok"]. *)
Theorem report_status (components : list HealthComponent.t) :
  HealthResponse.Status (health_report components) =
    (if decide (Forall (fun r => HealthComponent.Status r = "ok") components)
     then "ok" else "degraded")
  /\ HealthResponse.Status (health_report []) = "ok".
Proof.
  split.
  - unfold health_report. cbn [HealthResponse.Status]. apply aggregate_ok.
  - reflexivity.
Qed.

Example report_status_examples :
  let ok := HealthComponent.mk "a" "ok" "ok" "200 OK" 0%Z "" in
  let down :=
    HealthComponent.mk "b" "unreachable" "not ok" refused_text 0%Z refused_text in
  HealthResponse.Status (health_report [ok; ok; ok]) = "ok"
  /\ HealthResponse.Status (health_report [ok; down; ok]) = "degraded".
Proof. vm_compute. repeat split. Qed.

(** The same for the handler on a store: whatever order [GetAll] returns
    the records in, the status answered is ["ok"] exactly when every record
    of the store has status ["ok"]. *)
Lemma health_handler_status (s : StatusMap.t) (resp : HealthResponse.t) :
  health_handler s resp ->
  HealthResponse.Status resp =
    if decide (map_Forall (fun _ r => HealthComponent.Status r = "ok")
                 (StatusMap.Components s))
    then "ok" else "degraded".
Proof.
  intros (components & Hget & ->).
  unfold health_report. cbn [HealthResponse.Status]. rewrite aggregate_ok.
  unfold GetAll, range_values in Hget.
  assert (Forall (fun r => HealthComponent.Status r = "ok") components
          <-> map_Forall (fun _ r => HealthComponent.Status r = "ok")
                (StatusMap.Components s)) as Hiff.
  { rewrite Hget. rewrite map_Forall_to_list.
    rewrite Forall_fmap. apply Forall_proper; [|reflexivity].
    intros [k r]. reflexivity. }
  destruct (decide (Forall _ components)) as [H1|H1];
    destruct (decide (map_Forall _ _)) as [H2|H2]; try reflexivity.
  - exfalso. apply H2, Hiff, H1.
  - exfalso. apply H1, Hiff, H2.
Qed.

(** ** The status store *)

(** C9: [Update(name, status)] stores, under [name], a record whose
    endpoint status, HTTP result and error are the empty string and whose
    time of check is the time of the write, whatever was stored before; the
    write of the prober stores all four fields of the verdict. *)
Theorem Update_stores_bare_record (s : StatusMap.t) (name st : string)
    (now : Time) (c : ComponentConfig.t) (v : verdict) :
  StatusMap.Components (Update s name st now) !! name
    = Some (HealthComponent.mk name st "" "" now "")
  /\ StatusMap.Components (store (record_of c v now) s) !! ComponentConfig.Name c
    = Some (HealthComponent.mk (ComponentConfig.Name c) (status v)
              (endpointStatus v) (httpResult v) now (errMsg v)).
Proof.
  split.
  - unfold Update. cbn [StatusMap.Components]. apply lookup_insert_eq.
  - apply (lookup_store (record_of c v now)).
Qed.

Lemma GetAll_db_and_cache (l : list HealthComponent.t) :
  l ≡ₚ [cache_record; db_record] -> GetAll db_and_cache l.
Proof.
  intros Hl. unfold GetAll, range_values. rewrite Hl.
  vm_compute. reflexivity.
Qed.

(** C8, as stated, fails: on the store of the two records [db] and [cache]
    one call of [GetAll] may return them in one order and the next call in
    the other. *)
Lemma GetAll_twice_not_equal :
  ~ (forall (s : StatusMap.t) (l1 l2 : list HealthComponent.t),
       GetAll s l1 -> GetAll s l2 -> l1 = l2).
Proof.
  intros H.
  assert ([cache_record; db_record] = [db_record; cache_record]) as Heq.
  { apply (H db_and_cache).
    - apply GetAll_db_and_cache. reflexivity.
    - apply GetAll_db_and_cache. apply perm_swap. }
  discriminate Heq.
Qed.

(** C8, amended: two calls of [GetAll] with no write in between return the
    same records, each as many times: the two lists are permutations of one
    another (their order is that of Go's map iteration and may differ). *)
Theorem GetAll_twice_same_records (s : StatusMap.t)
    (l1 l2 : list HealthComponent.t) :
  GetAll s l1 -> GetAll s l2 -> l1 ≡ₚ l2.
Proof.
  unfold GetAll, range_values. intros H1 H2. rewrite H1, H2. reflexivity.
Qed.

Lemma GetAll_twice_same_records_witness :
  GetAll db_and_cache [cache_record; db_record]
  /\ GetAll db_and_cache [db_record; cache_record]
  /\ [cache_record; db_record] ≡ₚ [db_record; cache_record].
Proof.
  assert (GetAll db_and_cache [cache_record; db_record]) as H1.
  { unfold GetAll, range_values. vm_compute. reflexivity. }
  assert (GetAll db_and_cache [db_record; cache_record]) as H2.
  { unfold GetAll, range_values. vm_compute. apply perm_swap. }
  split; [exact H1|]. split; [exact H2|].
  exact (GetAll_twice_same_records db_and_cache _ _ H1 H2).
Defined.

(** *** Sequences of operations *)

Lemma apply_op_written (s : StatusMap.t) (op : StoreOp) :
  apply_op s op = match written op with
                  | Some r => store r s
                  | None => s
                  end.
Proof. destruct op; reflexivity. Qed.

Lemma apply_ops_snoc (ops : list StoreOp) (op : StoreOp) (s : StatusMap.t) :
  apply_ops (ops ++ [op]) s = apply_op (apply_ops ops s) op.
Proof. unfold apply_ops. rewrite fold_left_app. reflexivity. Qed.

Lemma apply_ops_app (ops1 ops2 : list StoreOp) (s : StatusMap.t) :
  apply_ops (ops1 ++ ops2) s = apply_ops ops2 (apply_ops ops1 s).
Proof. unfold apply_ops. apply fold_left_app. Qed.

(** No operation removes a name. *)
Lemma apply_ops_dom (ops : list StoreOp) (s : StatusMap.t) :
  dom (StatusMap.Components s) ⊆ dom (StatusMap.Components (apply_ops ops s)).
Proof.
  induction ops as [|op ops IH] using rev_ind; [reflexivity|].
  rewrite apply_ops_snoc, apply_op_written.
  destruct (written op) as [r|]; [|exact IH].
  etrans; [exact IH|]. apply dom_insert_subseteq.
Qed.

(** What is found under a name is the record of the last write for it. *)
Lemma apply_ops_lookup (ops : list StoreOp) (s : StatusMap.t) (name : string) :
  StatusMap.Components (apply_ops ops s) !! name =
    match last_written name ops with
    | Some r => Some r
    | None => StatusMap.Components s !! name
    end.
Proof.
  induction ops as [|op ops IH] using rev_ind; [reflexivity|].
  rewrite apply_ops_snoc, apply_op_written.
  unfold last_written in *. rewrite omap_app, filter_app, last_app.
  cbn [omap list_omap]. destruct (written op) as [r|]; cbn [filter].
  - destruct (decide (HealthComponent.Name r = name)) as [Heq|Hne].
    + rewrite filter_cons_True by exact Heq. cbn [last].
      rewrite <- Heq. apply lookup_store.
    + rewrite filter_cons_False by exact Hne. cbn [last].
      rewrite lookup_store_ne by exact Hne. exact IH.
  - cbn [last]. exact IH.
Qed.

Lemma well_keyed_store (r : HealthComponent.t) (s : StatusMap.t) :
  well_keyed s -> well_keyed (store r s).
Proof.
  intros Hs k r' Hk.
  destruct (decide (HealthComponent.Name r = k)) as [Heq|Hne].
  - subst k. rewrite lookup_store in Hk. congruence.
  - rewrite lookup_store_ne in Hk by exact Hne. apply Hs, Hk.
Qed.

Lemma well_keyed_apply_ops (ops : list StoreOp) (s : StatusMap.t) :
  well_keyed s -> well_keyed (apply_ops ops s).
Proof.
  intros Hs. induction ops as [|op ops IH] using rev_ind; [exact Hs|].
  rewrite apply_ops_snoc, apply_op_written.
  destruct (written op); [apply well_keyed_store|]; exact IH.
Qed.

Lemma well_keyed_NewStatusMap : well_keyed NewStatusMap.
Proof. intros k r Hk. cbn in Hk. rewrite lookup_empty in Hk. discriminate. Qed.

(** In a store where every record is filed under its own name, no two
    records have the same name. *)
Lemma well_keyed_NoDup (s : StatusMap.t) :
  well_keyed s ->
  NoDup (HealthComponent.Name <$> (map_to_list (StatusMap.Components s)).*2).
Proof.
  intros Hs.
  assert (HealthComponent.Name <$> (map_to_list (StatusMap.Components s)).*2
          = (map_to_list (StatusMap.Components s)).*1) as ->.
  { rewrite <- list_fmap_compose. apply list_eq_Forall2, Forall2_fmap.
    apply Forall_Forall2_diag, Forall_forall. intros [k r] Hin.
    apply elem_of_map_to_list in Hin. cbn. apply Hs, Hin. }
  apply NoDup_fst_map_to_list.
Qed.

(** What a reader gets: every record [GetAll] returns is, as a whole, the
    record of the last write for its name. *)
Lemma GetAll_returns_written (ops : list StoreOp)
    (l : list HealthComponent.t) :
  GetAll (apply_ops ops NewStatusMap) l ->
  Forall (fun r => last_written (HealthComponent.Name r) ops = Some r) l.
Proof.
  unfold GetAll, range_values. intros ->.
  apply Forall_fmap, Forall_forall. intros [k r] Hin.
  apply elem_of_map_to_list in Hin. cbn.
  rewrite (well_keyed_apply_ops ops NewStatusMap well_keyed_NewStatusMap k r Hin).
  rewrite apply_ops_lookup in Hin.
  destruct (last_written k ops); [exact Hin|].
  cbn in Hin. rewrite lookup_empty in Hin. discriminate.
Qed.

(** C7: along every sequence of store operations of a process, a name that
    has a record keeps having one; at any time no two records of the store
    have the same name; and the record found under a name is the record of
    the last write for that name, as a whole (no record if there was no
    write). *)
Theorem store_operations (ops1 ops2 : list StoreOp) (name : string) :
  dom (StatusMap.Components (apply_ops ops1 NewStatusMap))
    ⊆ dom (StatusMap.Components (apply_ops (ops1 ++ ops2) NewStatusMap))
  /\ NoDup (HealthComponent.Name <$>
             (map_to_list (StatusMap.Components (apply_ops ops1 NewStatusMap))).*2)
  /\ StatusMap.Components (apply_ops ops1 NewStatusMap) !! name
     = last_written name ops1.
Proof.
  split; [|split].
  - rewrite apply_ops_app. apply apply_ops_dom.
  - apply well_keyed_NoDup, well_keyed_apply_ops, well_keyed_NewStatusMap.
  - rewrite apply_ops_lookup.
    destruct (last_written name ops1); [reflexivity|].
    cbn. apply lookup_empty.
Qed.

(** ** One cycle *)

Lemma stored_app (es1 es2 : list Event) :
  stored (es1 ++ es2) = (stored es1 ++ stored es2)%list.
Proof. apply omap_app. Qed.

(** What a cycle adds to the events, and what it does to the store: the
    writes of the records it stores, in order; the status of each of them
    is a verdict of the classifier. *)
Lemma probe_all_stores (W : World) (components : list ComponentConfig.t)
    (p : Process) :
  exists es,
    events (final (probe_all W components p)) = (events p ++ es)%list
    /\ Forall (fun r => HealthComponent.Status r ∈ probe_statuses) (stored es)
    /\ statusMap (final (probe_all W components p))
       = fold_left (fun s r => store r s) (stored es) (statusMap p).
Proof.
  revert p. induction components as [|c rest IH]; intros p; cbn [probe_all].
  - exists []. rewrite app_nil_r. split; [reflexivity|]. split; [constructor|].
    reflexivity.
  - destruct (classify (client_Get W (gets p) (ComponentConfig.Endpoint c)))
      as [v|] eqn:Hv.
    + rewrite (probe_Returns W c p v Hv).
      match goal with |- context [probe_all W rest ?q] =>
        destruct (IH q) as (es & Hes & Hst & Hmap) end.
      cbn [events statusMap] in Hes, Hmap.
      exists ([EvGet (ComponentConfig.Endpoint c);
               EvStore (record_of c v (time_Now W (ticks p)));
               EvLog (entry_of c v (time_Now W (S (ticks p))))] ++ es).
      split; [rewrite Hes, <- app_assoc; reflexivity|].
      rewrite stored_app. split.
      * apply Forall_app. split; [|exact Hst].
        cbn. constructor; [|constructor].
        cbn. apply (classify_status _ _ Hv).
      * rewrite Hmap. reflexivity.
    + rewrite (probe_Panics W c p Hv). cbn [final events statusMap].
      exists [EvGet (ComponentConfig.Endpoint c)].
      split; [reflexivity|]. split; [constructor|]. reflexivity.
Qed.

(** C10: the records a cycle writes into the store (they are all the writes
    it makes) have a status among ["ok"], ["unreachable"] and
    ["invalid_response"]; none has the status ["unknown"].  This holds for
    every configuration, world and starting state, and whether the cycle
    returns or panics. *)
Theorem checkComponents_stored_statuses (W : World) (cfg : AppConfig.t)
    (p : Process) :
  exists es,
    events (final (checkComponents W cfg p)) = (events p ++ es)%list
    /\ statusMap (final (checkComponents W cfg p))
       = fold_left (fun s r => store r s) (stored es) (statusMap p)
    /\ Forall (fun r => HealthComponent.Status r ∈ ["ok"; "unreachable"; "invalid_response"]
                        /\ HealthComponent.Status r <> "unknown")
         (stored es).
Proof.
  unfold checkComponents.
  destruct (probe_all_stores W (AppConfig.Components cfg) p)
    as (es & Hes & Hst & Hmap).
  exists es. split; [exact Hes|]. split; [exact Hmap|].
  eapply Forall_impl; [exact Hst|].
  intros r Hr. cbn beta in Hr. unfold probe_statuses in Hr.
  split; [exact Hr|].
  intros Heq. rewrite Heq in Hr.
  apply list_elem_of_In in Hr. cbn in Hr. intuition discriminate.
Qed.

Lemma entry_mirrors_record (c : ComponentConfig.t) (v : verdict)
    (t1 t2 : Time) :
  mirrors (entry_of c v t2) (record_of c v t1).
Proof. repeat split. Qed.

(** A failed transport call never makes the classifier panic. *)
Lemma classify_GetErr (err : url.Error) :
  classify (http.GetErr err)
  = Returns (mk_verdict "unreachable" "not ok"
               (url.Error_Error err) (url.Error_Error err)).
Proof. reflexivity. Qed.

(** In a world whose answers never take the classifier to the nil [decErr]
    of line 134, a cycle returns, and what it does is, for each configured
    component in configured order, one request to its endpoint, one write
    of its record and one log entry for it. *)
Lemma checkComponents_complete (W : World) (cfg : AppConfig.t) (p : Process) :
  (forall n url, classify (client_Get W n url) <> Panics) ->
  exists (steps : list (ComponentConfig.t * verdict * Time * Time))
         (p' : Process),
    checkComponents W cfg p = Returned p'
    /\ events p' =
       events p ++ concat ((fun '(c, v, t1, t2) => visible c v t1 t2) <$> steps)
    /\ (fun '(c, _, _, _) => c) <$> steps = AppConfig.Components cfg.
Proof.
  intros Hsafe. unfold checkComponents.
  generalize (AppConfig.Components cfg). intros components. revert p.
  induction components as [|c rest IH]; intros p; cbn [probe_all].
  - exists [], p. cbn. rewrite app_nil_r. repeat split.
  - destruct (classify (client_Get W (gets p) (ComponentConfig.Endpoint c)))
      as [v|] eqn:Hv; [|exfalso; exact (Hsafe _ _ Hv)].
    rewrite (probe_Returns W c p v Hv).
    match goal with |- context [probe_all W rest ?q] =>
      destruct (IH q) as (steps & p' & Hret & Hev & Hcs) end.
    cbn [events] in Hev.
    exists ((c, v, time_Now W (ticks p), time_Now W (S (ticks p))) :: steps), p'.
    split; [exact Hret|]. split.
    + rewrite Hev. cbn [fmap list_fmap concat]. unfold visible at 2.
      rewrite <- app_assoc. reflexivity.
    + cbn [fmap list_fmap]. rewrite <- Hcs. reflexivity.
Qed.

(** A transport failure does not stop a cycle: with every connection
    refused, both components are probed and both get their record. *)
Example checkComponents_all_refused :
  exists p,
    checkComponents world_refusing cfg_ab start = Returned p
    /\ HealthComponent.Status <$> (StatusMap.Components (statusMap p) !! "a")
       = Some "unreachable"
    /\ HealthComponent.Status <$> (StatusMap.Components (statusMap p) !! "b")
       = Some "unreachable"
    /\ (fun e => match e with EvGet u => Some u | _ => None end) <$> events p
       = [Some "http://a.internal/health"; None; None;
          Some "http://b.internal/health"; None; None].
Proof. eexists. vm_compute. repeat split. Qed.

(** C6: a cycle should probe every configured component once, in order,
    with one record and one log entry each.  With the components [a] and
    [b], [a] answering [503 {"status":"down"}], the cycle panics in the
    probe of [a]: the request to [a] is all that happens, nothing is stored
    or logged, and [b] is not probed. *)
Theorem checkComponents_panics_before_b :
  checkComponents world_a_down cfg_ab start
  = Panicked (mk_Process NewStatusMap [EvGet "http://a.internal/health"] 1 0).
Proof. vm_compute. reflexivity. Qed.

(** * Further properties of the code *)

Set Warnings "-clear-no-such-hyp".

(** ** The texts of the decoder's errors *)

Lemma scan_error_nonempty (c : ascii) (context : string) (e : json.error) :
  json.scan_error c context = json.Fail e -> json.Error e <> "".
Proof. intros [= <-]. cbn. discriminate. Qed.

Lemma scan_Fail_nonempty (s : json.scanner) (c : ascii) (e : json.error) :
  json.scan s c = json.Fail e -> json.Error e <> "".
Proof.
  unfold json.scan, json.do_stateBeginValueOrEmpty,
    json.do_stateBeginStringOrEmpty, json.do_stateBeginValue,
    json.do_stateBeginString, json.do_state0, json.do_stateESign,
    json.end_number, json.do_stateEndValue, json.do_stateEndTop,
    json.expect, json.expect_last, json.in_hex, json.keep,
    json.begin_literal, json.pushParseState.
  repeat case_match; try discriminate; apply scan_error_nonempty.
Qed.

Lemma scan_all_error_nonempty (data : string) (s : json.scanner)
    (e : json.error) :
  json.scan_all s data = inl e -> json.Error e <> "".
Proof.
  revert s. induction data as [|c rest IH]; intros s; cbn [json.scan_all].
  - unfold json.eof. destruct (json.scan s " ") as [s'|e'] eqn:Hs.
    + repeat case_match; try discriminate; intros [= <-]; cbn; discriminate.
    + intros [= <-]. exact (scan_Fail_nonempty _ _ _ Hs).
  - destruct (json.scan s c) as [s'|e'] eqn:Hs.
    + apply IH.
    + intros [= <-]. exact (scan_Fail_nonempty _ _ _ Hs).
Qed.

Lemma type_error_nonempty (kind field : string) :
  json.Error (json.UnmarshalTypeError kind field) <> "".
Proof. destruct field; cbn; discriminate. Qed.

Lemma object_error_nonempty (members : list (string * json.value))
    (st : option json.error * json.health) (e : json.error) :
  (forall e0, fst st = Some e0 -> json.Error e0 <> "") ->
  fst (fold_left
         (fun st kv =>
            if json.equalFold "status" (fst kv)
            then json.store_Status (snd kv) st else st)
         members st) = Some e ->
  json.Error e <> "".
Proof.
  revert st. induction members as [|[k v] rest IH]; intros st Hst;
    cbn [fold_left].
  - apply Hst.
  - apply IH. cbn [fst snd].
    destruct (json.equalFold "status" k); [|exact Hst].
    unfold json.store_Status, json.saveError.
    destruct v; cbn [fst]; try exact Hst.
    all: destruct (fst st) as [e1|] eqn:Hf; intros e2 He2.
    all: injection He2 as <-.
    all: first [ exact (Hst _ eq_refl) | apply type_error_nonempty ].
Qed.

(** The error [json.Unmarshal] returns for a body has a text. *)
Lemma Unmarshal_error_nonempty (data : string) (h h' : json.health)
    (e : json.error) :
  json.Unmarshal data h = (Some e, h') -> json.Error e <> "".
Proof.
  unfold json.Unmarshal. destruct (json.parse data) as [e0|v] eqn:Hp.
  - intros [= <- _]. exact (scan_all_error_nonempty _ _ _ Hp).
  - destruct v; try (intros [= <- _]; apply type_error_nonempty);
      try discriminate.
    unfold json.object. intros Hobj.
    eapply object_error_nonempty; [|rewrite Hobj; reflexivity].
    cbn. discriminate.
Qed.

(** ** The classifier, continued *)

(** X1: the classifier panics on exactly one kind of answer: a response
    whose status code is not 200 and whose body decodes without error to a
    status other than ["ok"].  It never panics on a failed transport call,
    on a 200, or on a body that does not decode. *)
Theorem classify_panics_iff (r : http.GetResult) :
  classify r = Panics <->
  exists resp health,
    r = http.GetOk resp
    /\ json.Unmarshal (http.Body resp) (json.mk_health "") = (None, health)
    /\ json.Status health <> "ok"
    /\ http.StatusCode resp <> 200%Z.
Proof.
  split.
  - destruct r as [err|resp]; [discriminate|].
    rewrite classify_GetOk.
    destruct (json.Unmarshal (http.Body resp) (json.mk_health ""))
      as [decErr health] eqn:Hdec.
    destruct (bool_decide (decErr = None)
              && String.eqb (json.Status health) "ok") eqn:Hok;
      [discriminate|].
    destruct (http.StatusCode resp =? 200)%Z eqn:Hcode; [discriminate|].
    destruct decErr as [e|]; [discriminate|]. intros _.
    exists resp, health. split; [reflexivity|]. split; [exact Hdec|].
    split.
    + cbn in Hok. apply String.eqb_neq. exact Hok.
    + apply Z.eqb_neq. exact Hcode.
  - intros (resp & health & -> & Hdec & Hst & Hcode).
    exact (classify_nil_decErr resp health Hdec Hst Hcode).
Qed.

(** X2: in every verdict the classifier returns the fields agree: either
    the status is ["ok"], the endpoint status ["ok"] and there is no error
    text, or the status is not ["ok"], the endpoint status is ["not ok"]
    and the error text is not empty.  The HTTP result is the status line of
    the response, or the text of the transport error. *)
Theorem classify_verdict_coherent (r : http.GetResult) :
  match classify r with
  | Panics => True
  | Returns v =>
      ((status v = "ok" /\ endpointStatus v = "ok" /\ errMsg v = "")
       \/ (status v <> "ok" /\ endpointStatus v = "not ok" /\ errMsg v <> ""))
      /\ httpResult v = match r with
                        | http.GetErr err => url.Error_Error err
                        | http.GetOk resp => http.Status resp
                        end
  end.
Proof.
  destruct r as [err|resp].
  - rewrite classify_GetErr. cbn. split; [|reflexivity]. right.
    split; [discriminate|]. split; [reflexivity|]. apply url_Error_nonempty.
  - rewrite classify_GetOk.
    destruct (json.Unmarshal (http.Body resp) (json.mk_health ""))
      as [decErr health] eqn:Hdec.
    destruct (bool_decide (decErr = None)
              && String.eqb (json.Status health) "ok");
      [cbn; split; [left; repeat split|reflexivity]|].
    destruct (http.StatusCode resp =? 200)%Z;
      [cbn; split; [left; repeat split|reflexivity]|].
    destruct decErr as [e|]; [|exact I].
    cbn. split; [|reflexivity]. right.
    split; [discriminate|]. split; [reflexivity|].
    exact (Unmarshal_error_nonempty _ _ _ _ Hdec).
Qed.

(** X3: a response whose body does not decode (the decoder returns an
    error) and whose status code is not 200 gets the verdict
    ["invalid_response"], endpoint status ["not ok"], with the status line
    as HTTP result and the text of the decoder's error as error. *)
Theorem classify_undecodable (resp : http.Response) (e : json.error)
    (health : json.health) :
  json.Unmarshal (http.Body resp) (json.mk_health "") = (Some e, health) ->
  http.StatusCode resp <> 200%Z ->
  classify (http.GetOk resp)
  = Returns (mk_verdict "invalid_response" "not ok" (http.Status resp)
               (json.Error e)).
Proof.
  intros Hdec Hcode. rewrite classify_GetOk, Hdec.
  apply Z.eqb_neq in Hcode. rewrite Hcode. reflexivity.
Qed.

Lemma classify_undecodable_witness :
  classify (http.GetOk (resp_503 "Service Unavailable"))
  = Returns (mk_verdict "invalid_response" "not ok"
               (http.Status (resp_503 "Service Unavailable"))
               (json.Error
                  (json.SyntaxError
                     "invalid character 'S' looking for beginning of value"))).
Proof.
  apply (classify_undecodable (resp_503 "Service Unavailable") _
           (json.mk_health "")).
  - vm_compute. reflexivity.
  - discriminate.
Defined.

(** X4: the verdict depends on the body only through what the decoder
    makes of it: two responses with the same status line and status code
    whose bodies decode alike get the same verdict.  The plain-text test of
    line 126 ([trimToOk]) changes nothing. *)
Theorem classify_same_decoding (resp1 resp2 : http.Response) :
  http.Status resp1 = http.Status resp2 ->
  http.StatusCode resp1 = http.StatusCode resp2 ->
  json.Unmarshal (http.Body resp1) (json.mk_health "")
  = json.Unmarshal (http.Body resp2) (json.mk_health "") ->
  classify (http.GetOk resp1) = classify (http.GetOk resp2).
Proof.
  intros Hline Hcode Hdec. rewrite !classify_GetOk, Hline, Hcode, Hdec.
  reflexivity.
Qed.

Lemma classify_same_decoding_witness :
  trimToOk "ok" = true /\ trimToOk "okay" = false
  /\ classify (http.GetOk (http.mk_Response "200 OK" 200 "ok"))
     = classify (http.GetOk (http.mk_Response "200 OK" 200 "okay")).
Proof.
  split; [vm_compute; reflexivity|]. split; [vm_compute; reflexivity|].
  apply (classify_same_decoding (http.mk_Response "200 OK" 200 "ok")
           (http.mk_Response "200 OK" 200 "okay")).
  - reflexivity.
  - reflexivity.
  - vm_compute. reflexivity.
Defined.

(** ** The status store, continued *)



(** X6: the last write for a name wins: after two writes for the same name
    the store is as if only the second had been made, so an [Update] that
    follows a probe's write erases the endpoint status, HTTP result and
    error the probe stored. *)
Theorem last_write_wins (s : StatusMap.t) (op1 op2 : StoreOp)
    (r1 r2 : HealthComponent.t) :
  written op1 = Some r1 -> written op2 = Some r2 ->
  HealthComponent.Name r1 = HealthComponent.Name r2 ->
  apply_op (apply_op s op1) op2 = apply_op s op2.
Proof.
  intros H1 H2 Heq. rewrite !apply_op_written, H1, H2.
  unfold store. cbn [StatusMap.Components]. f_equal.
  rewrite Heq. apply insert_insert_eq.
Qed.

Lemma last_write_wins_witness :
  apply_op (apply_op NewStatusMap write_db_probe) write_db
  = apply_op NewStatusMap write_db.
Proof.
  apply (last_write_wins NewStatusMap write_db_probe write_db
           (HealthComponent.mk "db" "ok" "ok" "200 OK" 1%Z "")
           (HealthComponent.mk "db" "ok" "" "" 3%Z "")).
  - reflexivity.
  - reflexivity.
  - reflexivity.
Defined.

Lemma well_keyed_names (s : StatusMap.t) :
  well_keyed s ->
  HealthComponent.Name <$> (map_to_list (StatusMap.Components s)).*2
  = (map_to_list (StatusMap.Components s)).*1.
Proof.
  intros Hs. rewrite <- list_fmap_compose. apply list_eq_Forall2, Forall2_fmap.
  apply Forall_Forall2_diag, Forall_forall. intros [k r] Hin.
  apply elem_of_map_to_list in Hin. cbn. apply Hs, Hin.
Qed.

Lemma elem_of_keys {V : Type} (m : gmap string V) (k : string) :
  k ∈ (map_to_list m).*1 <-> is_Some (m !! k).
Proof.
  rewrite list_elem_of_fmap. split.
  - intros ([k' v] & -> & Hin). apply elem_of_map_to_list in Hin.
    exists v. exact Hin.
  - intros [v Hv]. exists (k, v). split; [reflexivity|].
    apply elem_of_map_to_list. exact Hv.
Qed.

Lemma last_written_is_Some (name : string) (ops : list StoreOp) :
  is_Some (last_written name ops)
  <-> name ∈ HealthComponent.Name <$> omap written ops.
Proof.
  unfold last_written. rewrite last_is_Some. split.
  - intros Hne.
    destruct (filter (fun r => HealthComponent.Name r = name) (omap written ops))
      as [|r rest] eqn:Hf; [contradiction|].
    assert (r ∈ filter (fun r => HealthComponent.Name r = name)
                  (omap written ops)) as Hin
      by (rewrite Hf; left).
    apply list_elem_of_filter in Hin as [Hname Hin].
    rewrite <- Hname. apply list_elem_of_fmap. exists r. split; [reflexivity|exact Hin].
  - intros Hin Hnil. apply list_elem_of_fmap in Hin as (r & -> & Hin).
    assert (r ∈ filter (fun r' => HealthComponent.Name r' = HealthComponent.Name r)
                  (omap written ops)) as Hin'
      by (apply list_elem_of_filter; split; [reflexivity|exact Hin]).
    rewrite Hnil in Hin'. inversion Hin'.
Qed.

(** X7: after any sequence of store operations on a new store, [GetAll]
    returns one record for each name that was written, and no other: the
    names of the records it returns are the names written, each once. *)
Theorem GetAll_one_record_per_name (ops : list StoreOp)
    (l : list HealthComponent.t) :
  GetAll (apply_ops ops NewStatusMap) l ->
  HealthComponent.Name <$> l
  ≡ₚ remove_dups (HealthComponent.Name <$> omap written ops).
Proof.
  unfold GetAll, range_values. intros ->.
  rewrite (well_keyed_names _
             (well_keyed_apply_ops ops NewStatusMap well_keyed_NewStatusMap)).
  apply NoDup_Permutation.
  - apply NoDup_fst_map_to_list.
  - apply NoDup_remove_dups.
  - intros name. rewrite elem_of_keys, elem_of_remove_dups, apply_ops_lookup.
    rewrite <- last_written_is_Some.
    destruct (last_written name ops) as [r|].
    + split; intros _; eexists; reflexivity.
    + cbn. rewrite lookup_empty. reflexivity.
Qed.

Lemma GetAll_one_record_per_name_witness :
  GetAll (apply_ops [write_db_probe; write_cache; write_db] NewStatusMap)
    [HealthComponent.mk "cache" "degraded" "" "" 2%Z "";
     HealthComponent.mk "db" "ok" "" "" 3%Z ""]
  /\ HealthComponent.Name <$>
       [HealthComponent.mk "cache" "degraded" "" "" 2%Z "";
        HealthComponent.mk "db" "ok" "" "" 3%Z ""]
     ≡ₚ remove_dups
          (HealthComponent.Name <$>
             omap written [write_db_probe; write_cache; write_db]).
Proof.
  assert (GetAll (apply_ops [write_db_probe; write_cache; write_db] NewStatusMap)
            [HealthComponent.mk "cache" "degraded" "" "" 2%Z "";
             HealthComponent.mk "db" "ok" "" "" 3%Z ""]) as Hget.
  { unfold GetAll, range_values. vm_compute. reflexivity. }
  split; [exact Hget|].
  exact (GetAll_one_record_per_name _ _ Hget).
Defined.

(** ** The [/health] handler, continued *)

(** X8: before any write into the store the handler has exactly one
    answer: status ["ok"] and no component. *)
Theorem health_handler_new_store (resp : HealthResponse.t) :
  health_handler NewStatusMap resp <-> resp = HealthResponse.mk "ok" [].
Proof.
  unfold health_handler, GetAll, range_values. cbn [NewStatusMap StatusMap.Components].
  rewrite map_to_list_empty. cbn [fmap list_fmap]. split.
  - intros (components & Hperm & ->).
    apply Permutation_nil_r in Hperm. subst components. reflexivity.
  - intros ->. exists []. split; reflexivity.
Qed.

(** X9: the answers the handler may give on one store differ only by the
    order of their components: they have the same status, and their
    component lists are permutations of one another. *)
Theorem health_answers_agree (s : StatusMap.t) (resp1 resp2 : HealthResponse.t) :
  health_handler s resp1 -> health_handler s resp2 ->
  HealthResponse.Status resp1 = HealthResponse.Status resp2
  /\ HealthResponse.Components resp1 ≡ₚ HealthResponse.Components resp2.
Proof.
  intros H1 H2. split.
  - rewrite (health_handler_status s resp1 H1), (health_handler_status s resp2 H2).
    reflexivity.
  - destruct H1 as (l1 & Hl1 & ->), H2 as (l2 & Hl2 & ->).
    cbn [health_report HealthResponse.Components].
    unfold GetAll, range_values in Hl1, Hl2. rewrite Hl1, Hl2. reflexivity.
Qed.

Lemma health_answers_agree_witness :
  HealthResponse.Status (health_report [cache_record; db_record])
  = HealthResponse.Status (health_report [db_record; cache_record])
  /\ [cache_record; db_record] ≡ₚ [db_record; cache_record].
Proof.
  apply (health_answers_agree db_and_cache
           (health_report [cache_record; db_record])
           (health_report [db_record; cache_record])).
  - exists [cache_record; db_record]. split; [|reflexivity].
    unfold GetAll, range_values. vm_compute. reflexivity.
  - exists [db_record; cache_record]. split; [|reflexivity].
    unfold GetAll, range_values. vm_compute. apply perm_swap.
Defined.

(** ** One cycle, continued *)

Lemma probe_frame (W : World) (c : ComponentConfig.t) (p : Process)
    (k : string) :
  k <> ComponentConfig.Name c ->
  StatusMap.Components (statusMap (final (probe W c p))) !! k
  = StatusMap.Components (statusMap p) !! k.
Proof.
  intros Hne. unfold probe.
  destruct (classify (client_Get W (gets p) (ComponentConfig.Endpoint c)));
    cbn [final statusMap]; [|reflexivity].
  apply lookup_store_ne. cbn. intros Heq. apply Hne. symmetry. exact Heq.
Qed.

(** A cycle touches no name but those of the components it probes. *)
Lemma probe_all_frame (W : World) (components : list ComponentConfig.t)
    (p : Process) (k : string) :
  k ∉ ComponentConfig.Name <$> components ->
  StatusMap.Components (statusMap (final (probe_all W components p))) !! k
  = StatusMap.Components (statusMap p) !! k.
Proof.
  revert p. induction components as [|c rest IH]; intros p Hk;
    cbn [probe_all]; [reflexivity|].
  cbn [fmap list_fmap] in Hk. apply not_elem_of_cons in Hk as [Hne Hk].
  pose proof (probe_frame W c p k Hne) as Hp.
  destruct (probe W c p) as [p1|p1]; cbn [final] in Hp |- *.
  - rewrite (IH p1 Hk). exact Hp.
  - exact Hp.
Qed.

(** What holds of every record at the start of a cycle and of every record
    a probe can write holds of every record at its end. *)
Lemma probe_all_map_Forall (W : World)
    (P : string -> HealthComponent.t -> Prop)
    (components : list ComponentConfig.t) (p : Process) :
  (forall c v t n,
     classify (client_Get W n (ComponentConfig.Endpoint c)) = Returns v ->
     P (ComponentConfig.Name c) (record_of c v t)) ->
  map_Forall P (StatusMap.Components (statusMap p)) ->
  map_Forall P
    (StatusMap.Components (statusMap (final (probe_all W components p)))).
Proof.
  intros HP. revert p.
  induction components as [|c rest IH]; intros p Hp; cbn [probe_all];
    [exact Hp|].
  destruct (classify (client_Get W (gets p) (ComponentConfig.Endpoint c)))
    as [v|] eqn:Hv.
  - rewrite (probe_Returns W c p v Hv). apply IH. cbn [statusMap].
    unfold store. cbn [StatusMap.Components].
    apply map_Forall_insert_2; [|exact Hp].
    exact (HP c v _ _ Hv).
  - rewrite (probe_Panics W c p Hv). exact Hp.
Qed.

(** The names in the store after a cycle that returns. *)
Lemma probe_all_dom (W : World) (components : list ComponentConfig.t)
    (p p' : Process) :
  probe_all W components p = Returned p' ->
  dom (StatusMap.Components (statusMap p'))
  = dom (StatusMap.Components (statusMap p))
    ∪ list_to_set (ComponentConfig.Name <$> components).
Proof.
  revert p. induction components as [|c rest IH]; intros p; cbn [probe_all].
  - intros [= <-]. cbn. set_solver.
  - destruct (classify (client_Get W (gets p) (ComponentConfig.Endpoint c)))
      as [v|] eqn:Hv.
    + rewrite (probe_Returns W c p v Hv). intros Hret.
      rewrite (IH _ Hret). cbn [statusMap store StatusMap.Components].
      unfold store. cbn [StatusMap.Components fmap list_fmap list_to_set].
      rewrite dom_insert_L. cbn. set_solver.
    + rewrite (probe_Panics W c p Hv). discriminate.
Qed.

(** The names in the store after a cycle, however it ends. *)
Lemma probe_all_dom_subseteq (W : World)
    (components : list ComponentConfig.t) (p : Process) :
  dom (StatusMap.Components (statusMap (final (probe_all W components p))))
  ⊆ dom (StatusMap.Components (statusMap p))
    ∪ list_to_set (ComponentConfig.Name <$> components).
Proof.
  revert p. induction components as [|c rest IH]; intros p; cbn [probe_all].
  - cbn. set_solver.
  - destruct (classify (client_Get W (gets p) (ComponentConfig.Endpoint c)))
      as [v|] eqn:Hv.
    + rewrite (probe_Returns W c p v Hv).
      etrans; [apply IH|]. cbn [statusMap]. unfold store.
      cbn [StatusMap.Components fmap list_fmap list_to_set].
      rewrite dom_insert_L. cbn. set_solver.
    + rewrite (probe_Panics W c p Hv). cbn. set_solver.
Qed.

(** With pairwise distinct names, the record a returning cycle leaves for
    its [i]-th component is the record of the verdict on the answer to the
    [i]-th request of the cycle. *)
Lemma probe_all_record (W : World) (components : list ComponentConfig.t)
    (p p' : Process) (i : nat) (c : ComponentConfig.t) :
  NoDup (ComponentConfig.Name <$> components) ->
  probe_all W components p = Returned p' ->
  components !! i = Some c ->
  exists v,
    classify (client_Get W (gets p + i) (ComponentConfig.Endpoint c)) = Returns v
    /\ StatusMap.Components (statusMap p') !! ComponentConfig.Name c
       = Some (record_of c v (time_Now W (ticks p + 2 * i))).
Proof.
  revert p i. induction components as [|c0 rest IH]; intros p i Hnd Hret Hi;
    [discriminate Hi|].
  cbn [fmap list_fmap] in Hnd. apply NoDup_cons in Hnd as [Hfresh Hnd].
  cbn [probe_all] in Hret.
  destruct (classify (client_Get W (gets p) (ComponentConfig.Endpoint c0)))
    as [v0|] eqn:Hv0;
    [rewrite (probe_Returns W c0 p v0 Hv0) in Hret
    |rewrite (probe_Panics W c0 p Hv0) in Hret; discriminate].
  destruct i as [|i]; cbn in Hi.
  - injection Hi as <-. exists v0.
    rewrite Nat.add_0_r, Nat.mul_0_r, Nat.add_0_r. split; [exact Hv0|].
    match type of Hret with probe_all W rest ?q = _ =>
      pose proof (probe_all_frame W rest q _ Hfresh) as Hframe end.
    rewrite Hret in Hframe. cbn [final statusMap] in Hframe.
    rewrite Hframe. apply (lookup_store (record_of c0 v0 _)).
  - destruct (IH _ i Hnd Hret Hi) as (v & Hv & Hlook).
    cbn [gets ticks] in Hv, Hlook. exists v.
    replace (gets p + S i) with (S (gets p) + i) by lia.
    replace (ticks p + 2 * S i) with (S (S (ticks p)) + 2 * i) by lia.
    split; [exact Hv|exact Hlook].
Qed.

(** X10: a cycle leaves the record of every name that is not the name of a
    configured component as it was (or absent), whether it returns or
    panics. *)
Theorem checkComponents_frame (W : World) (cfg : AppConfig.t) (p : Process)
    (k : string) :
  k ∉ ComponentConfig.Name <$> AppConfig.Components cfg ->
  StatusMap.Components (statusMap (final (checkComponents W cfg p))) !! k
  = StatusMap.Components (statusMap p) !! k.
Proof. apply probe_all_frame. Qed.

Lemma checkComponents_frame_witness :
  StatusMap.Components
    (statusMap
       (final (checkComponents world_a_down cfg_ab
                 (mk_Process db_and_cache [] 0 0)))) !! "db"
  = StatusMap.Components (statusMap (mk_Process db_and_cache [] 0 0)) !! "db".
Proof.
  apply (checkComponents_frame world_a_down cfg_ab
           (mk_Process db_and_cache [] 0 0) "db").
  cbn. intros Hin. apply list_elem_of_In in Hin. cbn in Hin.
  intuition discriminate.
Defined.

(** The same on the loop, for any list of components. *)
Lemma probe_all_trace (W : World) (components : list ComponentConfig.t)
    (p : Process) :
  (forall i c, components !! i = Some c ->
     classify (client_Get W (gets p + i) (ComponentConfig.Endpoint c))
     <> Panics) ->
  exists (steps : list (ComponentConfig.t * verdict * Time * Time))
         (p' : Process),
    probe_all W components p = Returned p'
    /\ (fun '(c, _, _, _) => c) <$> steps = components
    /\ events p' =
       events p ++ concat ((fun '(c, v, t1, t2) => visible c v t1 t2) <$> steps)
    /\ (forall i c v t1 t2, steps !! i = Some (c, v, t1, t2) ->
          classify (client_Get W (gets p + i) (ComponentConfig.Endpoint c))
          = Returns v
          /\ t1 = time_Now W (ticks p + 2 * i)
          /\ t2 = time_Now W (ticks p + 2 * i + 1)
          /\ mirrors (entry_of c v t2) (record_of c v t1)).
Proof.
  revert p.
  induction components as [|c rest IH]; intros p Hsafe; cbn [probe_all].
  - exists [], p. cbn [fmap list_fmap concat]. rewrite app_nil_r.
    split; [reflexivity|]. split; [reflexivity|]. split; [reflexivity|].
    intros i c v t1 t2 Hi. cbn in Hi. discriminate Hi.
  - destruct (classify (client_Get W (gets p) (ComponentConfig.Endpoint c)))
      as [v|] eqn:Hv.
    2:{ exfalso. apply (Hsafe 0 c eq_refl). rewrite Nat.add_0_r. exact Hv. }
    rewrite (probe_Returns W c p v Hv).
    match goal with |- context [probe_all W rest ?q] =>
      destruct (IH q) as (steps & p' & Hret & Hcs & Hev & Hsteps) end.
    { intros i c' Hi. cbn [gets].
      replace (S (gets p) + i) with (gets p + S i) by lia.
      apply Hsafe. exact Hi. }
    cbn [events gets ticks] in Hev, Hsteps.
    exists ((c, v, time_Now W (ticks p), time_Now W (S (ticks p))) :: steps), p'.
    split; [exact Hret|]. split; [cbn [fmap list_fmap]; rewrite Hcs; reflexivity|].
    split.
    + rewrite Hev. cbn [fmap list_fmap concat]. unfold visible at 2.
      rewrite <- app_assoc. reflexivity.
    + intros [|i] c' v' t1 t2 Hi; cbn in Hi.
      * injection Hi as <- <- <- <-.
        rewrite Nat.add_0_r, Nat.mul_0_r, Nat.add_0_r, Nat.add_1_r.
        split; [exact Hv|]. split; [reflexivity|]. split; [reflexivity|].
        apply entry_mirrors_record.
      * destruct (Hsteps i c' v' t1 t2 Hi) as (Hc & Ht1 & Ht2 & Hm).
        replace (gets p + S i) with (S (gets p) + i) by lia.
        replace (ticks p + 2 * S i) with (S (S (ticks p)) + 2 * i) by lia.
        split; [exact Hc|]. split; [exact Ht1|]. split; [exact Ht2|exact Hm].
Qed.

(** X11: when none of the answers to the requests of a cycle makes the
    classifier panic, the cycle returns, and what it did is, for each
    configured component in configured order: one request to its endpoint
    (the [i]-th component gets the [i]-th request of the cycle), the write
    of the record of the verdict on the answer, and a log entry with the
    same component, status, endpoint status, HTTP result and error as that
    record; the record is dated by the clock reading before the one of the
    log entry. *)
Theorem checkComponents_trace (W : World) (cfg : AppConfig.t) (p : Process) :
  (forall i c, AppConfig.Components cfg !! i = Some c ->
     classify (client_Get W (gets p + i) (ComponentConfig.Endpoint c))
     <> Panics) ->
  exists (steps : list (ComponentConfig.t * verdict * Time * Time))
         (p' : Process),
    checkComponents W cfg p = Returned p'
    /\ (fun '(c, _, _, _) => c) <$> steps = AppConfig.Components cfg
    /\ events p' =
       events p ++ concat ((fun '(c, v, t1, t2) => visible c v t1 t2) <$> steps)
    /\ (forall i c v t1 t2, steps !! i = Some (c, v, t1, t2) ->
          classify (client_Get W (gets p + i) (ComponentConfig.Endpoint c))
          = Returns v
          /\ t1 = time_Now W (ticks p + 2 * i)
          /\ t2 = time_Now W (ticks p + 2 * i + 1)
          /\ mirrors (entry_of c v t2) (record_of c v t1)).
Proof. apply probe_all_trace. Qed.

Lemma checkComponents_trace_witness :
  exists (steps : list (ComponentConfig.t * verdict * Time * Time))
         (p' : Process),
    checkComponents world_refusing cfg_ab start = Returned p'
    /\ (fun '(c, _, _, _) => c) <$> steps = AppConfig.Components cfg_ab
    /\ events p' =
       events start
       ++ concat ((fun '(c, v, t1, t2) => visible c v t1 t2) <$> steps)
    /\ (forall i c v t1 t2, steps !! i = Some (c, v, t1, t2) ->
          classify (client_Get world_refusing (gets start + i)
                      (ComponentConfig.Endpoint c))
          = Returns v
          /\ t1 = time_Now world_refusing (ticks start + 2 * i)
          /\ t2 = time_Now world_refusing (ticks start + 2 * i + 1)
          /\ mirrors (entry_of c v t2) (record_of c v t1)).
Proof.
  apply (checkComponents_trace world_refusing cfg_ab start).
  intros i c _. discriminate.
Defined.

(** X12: when the configured names are pairwise distinct and the cycle
    returns, the store holds, under the name of the [i]-th configured
    component, the record of the verdict on the answer to the [i]-th request
    of the cycle, dated by the clock reading made for it. *)
Theorem checkComponents_record (W : World) (cfg : AppConfig.t)
    (p p' : Process) (i : nat) (c : ComponentConfig.t) :
  NoDup (ComponentConfig.Name <$> AppConfig.Components cfg) ->
  checkComponents W cfg p = Returned p' ->
  AppConfig.Components cfg !! i = Some c ->
  exists v,
    classify (client_Get W (gets p + i) (ComponentConfig.Endpoint c)) = Returns v
    /\ StatusMap.Components (statusMap p') !! ComponentConfig.Name c
       = Some (record_of c v (time_Now W (ticks p + 2 * i))).
Proof. apply probe_all_record. Qed.

Lemma checkComponents_record_witness :
  exists v,
    classify (client_Get world_refusing (gets start + 1)
                (ComponentConfig.Endpoint
                   (ComponentConfig.mk "b" "http://b.internal/health")))
    = Returns v
    /\ StatusMap.Components
         (statusMap (final (checkComponents world_refusing cfg_ab start)))
       !! ComponentConfig.Name (ComponentConfig.mk "b" "http://b.internal/health")
       = Some (record_of (ComponentConfig.mk "b" "http://b.internal/health") v
                 (time_Now world_refusing (ticks start + 2 * 1))).
Proof.
  apply (checkComponents_record world_refusing cfg_ab start
           (final (checkComponents world_refusing cfg_ab start)) 1
           (ComponentConfig.mk "b" "http://b.internal/health")).
  - cbn. repeat (apply NoDup_cons; split;
                 [intros H; apply list_elem_of_In in H; cbn in H;
                  intuition discriminate|]).
    apply NoDup_nil_2.
  - vm_compute. reflexivity.
  - reflexivity.
Defined.

(** ** A cycle and the report that follows *)

Lemma classify_code_200 (line body : string) :
  classify (http.GetOk (http.mk_Response line 200 body))
  = Returns (mk_verdict "ok" "ok" line "").
Proof.
  rewrite classify_GetOk. cbn [http.Body http.Status http.StatusCode].
  destruct (json.Unmarshal body (json.mk_health "")) as [decErr health].
  destruct (bool_decide (decErr = None) && String.eqb (json.Status health) "ok");
    reflexivity.
Qed.

(** X13: when every endpoint answers with status code 200 (whatever the
    body), the first cycle of a new process returns, and the report the
    handler then gives has status ["ok"], lists one component for each
    configured name, and every component in it has status ["ok"], endpoint
    status ["ok"] and no error. *)
Theorem all_200_report_ok (W : World) (cfg : AppConfig.t) :
  (forall n url, exists line body,
      client_Get W n url = http.GetOk (http.mk_Response line 200 body)) ->
  exists p',
    checkComponents W cfg start = Returned p'
    /\ forall resp,
         health_handler (statusMap p') resp ->
         HealthResponse.Status resp = "ok"
         /\ Forall (fun r => HealthComponent.Status r = "ok"
                             /\ HealthComponent.EndpointStatus r = "ok"
                             /\ HealthComponent.Error r = "")
              (HealthResponse.Components resp)
         /\ HealthComponent.Name <$> HealthResponse.Components resp
            ≡ₚ remove_dups (ComponentConfig.Name <$> AppConfig.Components cfg).
Proof.
  intros H200.
  assert (forall n url, classify (client_Get W n url) <> Panics) as Hsafe.
  { intros n url. destruct (H200 n url) as (line & body & ->).
    rewrite classify_code_200. discriminate. }
  destruct (checkComponents_complete W cfg start Hsafe)
    as (steps & p' & Hret & _ & _).
  exists p'. split; [exact Hret|].
  unfold checkComponents in Hret.
  assert (map_Forall
            (fun k r => HealthComponent.Name r = k
                        /\ HealthComponent.Status r = "ok"
                        /\ HealthComponent.EndpointStatus r = "ok"
                        /\ HealthComponent.Error r = "")
            (StatusMap.Components (statusMap p'))) as Hall.
  { pose proof (probe_all_map_Forall W
                  (fun k r => HealthComponent.Name r = k
                              /\ HealthComponent.Status r = "ok"
                              /\ HealthComponent.EndpointStatus r = "ok"
                              /\ HealthComponent.Error r = "")
                  (AppConfig.Components cfg) start) as Hinv.
    rewrite Hret in Hinv. apply Hinv.
    - intros c v t n. destruct (H200 n (ComponentConfig.Endpoint c))
        as (line & body & ->).
      rewrite classify_code_200. intros [= <-]. repeat split.
    - cbn. apply map_Forall_empty. }
  intros resp Hresp. split; [|split].
  - rewrite (health_handler_status _ _ Hresp).
    destruct (decide _) as [_|Hno]; [reflexivity|].
    exfalso. apply Hno. intros k r Hk. apply (Hall k r Hk).
  - destruct Hresp as (l & Hl & ->). cbn [health_report HealthResponse.Components].
    unfold GetAll, range_values in Hl. rewrite Hl.
    apply Forall_fmap, Forall_forall. intros [k r] Hin.
    apply elem_of_map_to_list in Hin. cbn. apply (Hall k r Hin).
  - destruct Hresp as (l & Hl & ->). cbn [health_report HealthResponse.Components].
    unfold GetAll, range_values in Hl. rewrite Hl.
    rewrite well_keyed_names by (intros k r Hk; apply (Hall k r Hk)).
    apply NoDup_Permutation.
    + apply NoDup_fst_map_to_list.
    + apply NoDup_remove_dups.
    + intros k. rewrite elem_of_keys, elem_of_remove_dups, <- elem_of_dom.
      rewrite (probe_all_dom W _ _ _ Hret). cbn [start statusMap NewStatusMap
        StatusMap.Components].
      rewrite dom_empty_L, elem_of_union, elem_of_list_to_set.
      split; [intros [Hk|Hk]; [inversion Hk|exact Hk]|intros Hk; right; exact Hk].
Qed.

Lemma all_200_report_ok_witness :
  exists p',
    checkComponents world_all_ok cfg_ab start = Returned p'
    /\ forall resp,
         health_handler (statusMap p') resp ->
         HealthResponse.Status resp = "ok"
         /\ Forall (fun r => HealthComponent.Status r = "ok"
                             /\ HealthComponent.EndpointStatus r = "ok"
                             /\ HealthComponent.Error r = "")
              (HealthResponse.Components resp)
         /\ HealthComponent.Name <$> HealthResponse.Components resp
            ≡ₚ remove_dups
                 (ComponentConfig.Name <$> AppConfig.Components cfg_ab).
Proof.
  apply (all_200_report_ok world_all_ok cfg_ab).
  intros n url. exists "200 OK", (body_status "ok"). reflexivity.
Defined.

(** X14: when the configured names are pairwise distinct and a cycle
    returns, a verdict other than ["ok"] on one configured component (its
    endpoint unreachable, or its response invalid) makes every report the
    handler then gives ["degraded"]. *)
Theorem failed_component_degrades (W : World) (cfg : AppConfig.t)
    (p p' : Process) (i : nat) (c : ComponentConfig.t) (v : verdict)
    (resp : HealthResponse.t) :
  NoDup (ComponentConfig.Name <$> AppConfig.Components cfg) ->
  checkComponents W cfg p = Returned p' ->
  AppConfig.Components cfg !! i = Some c ->
  classify (client_Get W (gets p + i) (ComponentConfig.Endpoint c)) = Returns v ->
  status v <> "ok" ->
  health_handler (statusMap p') resp ->
  HealthResponse.Status resp = "degraded".
Proof.
  intros Hnd Hret Hi Hv Hst Hresp.
  destruct (probe_all_record W _ p p' i c Hnd Hret Hi) as (v' & Hv' & Hlook).
  rewrite Hv in Hv'. injection Hv' as <-.
  rewrite (health_handler_status _ _ Hresp).
  destruct (decide _) as [Hall|_]; [|reflexivity].
  exfalso. apply Hst. exact (Hall _ _ Hlook).
Qed.

Lemma failed_component_degrades_witness :
  HealthResponse.Status
    (health_report
       (map_to_list
          (StatusMap.Components
             (statusMap (final (checkComponents world_refusing cfg_ab start))))).*2)
  = "degraded".
Proof.
  apply (failed_component_degrades world_refusing cfg_ab start
           (final (checkComponents world_refusing cfg_ab start)) 0
           (ComponentConfig.mk "a" "http://a.internal/health")
           (mk_verdict "unreachable" "not ok"
              (url.Error_Error refused) (url.Error_Error refused))).
  - cbn. repeat (apply NoDup_cons; split;
                 [intros H; apply list_elem_of_In in H; cbn in H;
                  intuition discriminate|]).
    apply NoDup_nil_2.
  - vm_compute. reflexivity.
  - reflexivity.
  - reflexivity.
  - discriminate.
  - eexists. split; [|reflexivity]. unfold GetAll, range_values. reflexivity.
Defined.

(** ** The scheduler *)

(** X15: however many turns the scheduler makes, and however they end, the
    names in the store are names that were in it at the start or names of
    configured components: the store does not grow beyond the
    configuration.  Every sleep it makes has the configured interval, and
    there is at most one per turn. *)
Theorem startHealthChecks_bounded (W : World) (cfg : AppConfig.t) (n : nat)
    (p : Process) :
  dom (StatusMap.Components
         (statusMap (final (fst (startHealthChecks W cfg n p)))))
  ⊆ dom (StatusMap.Components (statusMap p))
    ∪ list_to_set (ComponentConfig.Name <$> AppConfig.Components cfg)
  /\ Forall (fun d => d = check_interval cfg) (snd (startHealthChecks W cfg n p))
  /\ length (snd (startHealthChecks W cfg n p)) <= n.
Proof.
  unfold startHealthChecks. generalize (check_interval cfg). intros interval.
  revert p. induction n as [|n IH]; intros p; cbn [health_checks].
  - cbn. split; [set_solver|]. split; [constructor|lia].
  - pose proof (probe_all_dom_subseteq W (AppConfig.Components cfg) p) as Hdom.
    fold (checkComponents W cfg p) in Hdom.
    destruct (checkComponents W cfg p) as [p1|p1]; cbn [final] in Hdom.
    + destruct (IH p1) as (Hd & Hs & Hl).
      destruct (health_checks W cfg interval n p1) as [o slept].
      cbn [fst snd] in *. split; [set_solver|].
      split; [constructor; [reflexivity|exact Hs]|cbn; lia].
    + cbn [fst snd final]. split; [exact Hdom|]. split; [constructor|cbn; lia].
Qed.

(** X16: for a check interval between -9223372036 and 9223372036 seconds
    the duration the scheduler sleeps is that many seconds, in nanoseconds:
    the [int64] product does not overflow. *)
Theorem check_interval_exact (cfg : AppConfig.t) :
  (-9223372036 <= AppConfig.CheckInterval cfg <= 9223372036)%Z ->
  check_interval cfg = (AppConfig.CheckInterval cfg * 1000000000)%Z.
Proof.
  intros Hrange. unfold check_interval, wrap_int64.
  rewrite Z.mod_small by lia. lia.
Qed.

Lemma check_interval_exact_witness :
  check_interval cfg_ab = (AppConfig.CheckInterval cfg_ab * 1000000000)%Z.
Proof.
  apply (check_interval_exact cfg_ab). cbn. lia.
Defined.

(** ** Log retention *)

Lemma cleanup_files_remove (Join : string -> string -> string)
    (logDir : string) (cutoff : Time) (files : list os.DirEntry)
    (path : string) :
  EvRemove path ∈ cleanup_files Join logDir cutoff files
  <-> exists f info,
        f ∈ files /\ os.Info f = Some info /\ os.IsRegular info = true
        /\ (os.ModTime info < cutoff)%Z
        /\ path = Join logDir (os.Name f).
Proof.
  induction files as [|f rest IH]; cbn [cleanup_files].
  - split; [intros H; inversion H|intros (f & info & H & _); inversion H].
  - destruct (os.Info f) as [info|] eqn:Hinfo.
    + destruct (os.IsRegular info && (os.ModTime info <? cutoff)%Z) eqn:Hold.
      * rewrite elem_of_cons, IH. split.
        -- intros [[= ->]|(f' & info' & Hin & Hrest)].
           ++ apply andb_true_iff in Hold as [Hreg Hlt].
              apply Z.ltb_lt in Hlt.
              exists f, info. split; [left|]. repeat split; assumption.
           ++ exists f', info'. split; [right; exact Hin|exact Hrest].
        -- intros (f' & info' & Hin & Hi & Hreg & Hlt & ->).
           apply elem_of_cons in Hin as [->|Hin].
           ++ left. reflexivity.
           ++ right. exists f', info'. repeat split; assumption.
      * rewrite IH. split.
        -- intros (f' & info' & Hin & Hrest).
           exists f', info'. split; [right; exact Hin|exact Hrest].
        -- intros (f' & info' & Hin & Hi & Hreg & Hlt & ->).
           apply elem_of_cons in Hin as [->|Hin].
           ++ exfalso. rewrite Hinfo in Hi. injection Hi as ->.
              rewrite Hreg in Hold. apply Z.ltb_lt in Hlt.
              rewrite Hlt in Hold. discriminate.
           ++ exists f', info'. repeat split; assumption.
    + rewrite IH. split.
      * intros (f' & info' & Hin & Hrest).
        exists f', info'. split; [right; exact Hin|exact Hrest].
      * intros (f' & info' & Hin & Hi & Hrest).
        apply elem_of_cons in Hin as [->|Hin].
        -- rewrite Hinfo in Hi. discriminate.
        -- exists f', info'. split; [exact Hin|]. split; [exact Hi|exact Hrest].
Qed.

Lemma cleanup_files_no_print (Join : string -> string -> string)
    (logDir : string) (cutoff : Time) (files : list os.DirEntry) :
  Forall (fun ev => exists path, ev = EvRemove path)
    (cleanup_files Join logDir cutoff files).
Proof.
  induction files as [|f rest IH]; cbn [cleanup_files]; [constructor|].
  destruct (os.Info f) as [info|]; [|exact IH].
  destruct (os.IsRegular info && (os.ModTime info <? cutoff)%Z); [|exact IH].
  constructor; [eexists; reflexivity|exact IH].
Qed.

(** X17: when the log directory can be read, [cleanupLogs] asks for the
    removal of exactly the entries that are regular files modified strictly
    before the cutoff ([now] moved back by the retention days), whatever
    their names; it asks for nothing else: not for a directory, not for a
    file modified at the cutoff or later, not for an entry whose [Info()]
    fails; and it logs nothing. *)
Theorem cleanupLogs_removes (AddDate : Time -> Z -> Z -> Z -> Time)
    (Join : string -> string -> string) (now : Time)
    (files : list os.DirEntry) (logDir : string) (retentionDays : Z)
    (path : string) :
  (EvRemove path ∈ cleanupLogs AddDate Join now (inr files) logDir retentionDays
   <-> exists f info,
         f ∈ files /\ os.Info f = Some info /\ os.IsRegular info = true
         /\ (os.ModTime info < AddDate now 0 0 (wrap_int64 (- retentionDays)))%Z
         /\ path = Join logDir (os.Name f))
  /\ Forall (fun ev => exists path', ev = EvRemove path')
       (cleanupLogs AddDate Join now (inr files) logDir retentionDays).
Proof.
  unfold cleanupLogs. split.
  - apply cleanup_files_remove.
  - apply cleanup_files_no_print.
Qed.

Example cleanupLogs_example :
  cleanupLogs days_AddDate slash_Join 57%Z (inr log_dir_entries) "logs" 7%Z
  = [EvRemove "logs/2025-01-01.log"; EvRemove "logs/notes.txt"]
  /\ cleanupLogs days_AddDate slash_Join 57%Z
       (inl "open logs: permission denied") "logs" 7%Z
     = [EvPrintf "Failed to read log dir: open logs: permission denied"].
Proof. vm_compute. split; reflexivity. Qed.

(** ** When a cycle returns *)

Lemma probe_all_returned_safe (W : World)
    (components : list ComponentConfig.t) (p p' : Process) (i : nat)
    (c : ComponentConfig.t) :
  probe_all W components p = Returned p' ->
  components !! i = Some c ->
  classify (client_Get W (gets p + i) (ComponentConfig.Endpoint c)) <> Panics.
Proof.
  revert p i. induction components as [|c0 rest IH]; intros p i Hret Hi;
    [discriminate Hi|].
  cbn [probe_all] in Hret.
  destruct (classify (client_Get W (gets p) (ComponentConfig.Endpoint c0)))
    as [v0|] eqn:Hv0;
    [rewrite (probe_Returns W c0 p v0 Hv0) in Hret
    |rewrite (probe_Panics W c0 p Hv0) in Hret; discriminate].
  destruct i as [|i]; cbn in Hi.
  - injection Hi as <-. rewrite Nat.add_0_r, Hv0. discriminate.
  - pose proof (IH _ i Hret Hi) as Hsafe. cbn [gets] in Hsafe.
    replace (gets p + S i) with (S (gets p) + i) by lia. exact Hsafe.
Qed.

(** X18: a cycle returns exactly when none of the answers to its requests
    (the [i]-th request going to the [i]-th configured component) makes the
    classifier panic; otherwise it panics. *)
Theorem checkComponents_returns_iff (W : World) (cfg : AppConfig.t)
    (p : Process) :
  (exists p', checkComponents W cfg p = Returned p')
  <-> (forall i c, AppConfig.Components cfg !! i = Some c ->
         classify (client_Get W (gets p + i) (ComponentConfig.Endpoint c))
         <> Panics).
Proof.
  unfold checkComponents. split.
  - intros [p' Hret] i c Hi. exact (probe_all_returned_safe W _ p p' i c Hret Hi).
  - intros Hsafe.
    destruct (probe_all_trace W _ p Hsafe) as (steps & p' & Hret & _).
    exists p'. exact Hret.
Qed.

(** X19: after a cycle that returns, the names in the store are the names
    that were in it before together with the names of all configured
    components: every configured component has a record. *)
Theorem checkComponents_covers (W : World) (cfg : AppConfig.t)
    (p p' : Process) :
  checkComponents W cfg p = Returned p' ->
  dom (StatusMap.Components (statusMap p'))
  = dom (StatusMap.Components (statusMap p))
    ∪ list_to_set (ComponentConfig.Name <$> AppConfig.Components cfg).
Proof. apply probe_all_dom. Qed.

Lemma checkComponents_covers_witness :
  dom (StatusMap.Components
         (statusMap (final (checkComponents world_refusing cfg_ab start))))
  = dom (StatusMap.Components (statusMap start))
    ∪ list_to_set (ComponentConfig.Name <$> AppConfig.Components cfg_ab).
Proof.
  apply (checkComponents_covers world_refusing cfg_ab start
           (final (checkComponents world_refusing cfg_ab start))).
  vm_compute. reflexivity.
Defined.
